(** * Cache-key derivation of [ZFunctionCache] (custom_dispatcher.py)

    A shallow embedding of [ZFunctionCache._index_key] and of its three
    local helpers, [_is_first_class_function], [_compute_custom_key] and
    [map_only], over Python values; the same code over a store of objects,
    for what it does to its inputs; and the properties of the derived
    key.  The base class, the serializer and the digest are parameters. *)

From stdpp Require Import base list strings.
From Stdlib Require Import Strings.Byte.

Set Default Proof Using "Type".

(** ** Python values *)

(** Exceptions that the modelled code can raise.  [Raised] stands for any
    exception coming out of a collaborator (the base cache, [dumps]). *)
Inductive exception :=
| AttributeError (attr : string)
| TypeError
| IndexError
| RecursionError
| Raised (what : string).

Inductive result (A : Type) :=
| Ok (a : A)
| Raise (e : exception).
Arguments Ok {A} a.
Arguments Raise {A} e.

Definition bind {A B} (m : result A) (k : A -> result B) : result B :=
  match m with
  | Ok a => k a
  | Raise e => Raise e
  end.

Notation "x <- m ;; k" := (bind m (fun x => k))
  (at level 100, m at next level, right associativity).

(** [raises m]: the computation ends in an exception. *)
Definition raises {A} (m : result A) : Prop := exists e, m = Raise e.

(** A Python function object, as far as the code looks at it:
    [py_func.__module__] and [py_func.__qualname__]. *)
Record function := {
  __module__ : string;
  __qualname__ : string
}.

(** What [typ.key] is on an object. *)
Inductive key_attr :=
| NoKey                                  (* no attribute [key] *)
| KeyNotCallable                         (* [typ.key] is there, [typ.key()] is a TypeError *)
| KeyCall (referent : option function).  (* [typ.key()] returns an object; its [py_func],
                                            when it has one *)

(** The two attributes [_compute_custom_key] inspects. *)
Record attrs := {
  py_func : option function;
  key : key_attr
}.

(** The objects found in a signature, in closure cells and in a key.
    [oid] is the identity of the object: two instances compiled from the
    same source function carry different [oid]s. *)
Unset Elimination Schemes.
Inductive pyobj :=
| PyTuple (items : list pyobj)
| PyList (items : list pyobj)
| PyStr (s : string)
| TypesDispatcher (oid : nat) (a : attrs)                   (* a [types.Dispatcher] *)
| DispatcherObj (oid : nat) (a : attrs) (_type : pyobj)     (* a [dispatcher.Dispatcher] *)
| PyOther (oid : nat).                                      (* anything else, e.g. [int64] *)
Set Elimination Schemes.

(** The classes the code tests with [isinstance]. *)
Inductive pyclass :=
| tuple_list              (* [(tuple, list)] *)
| types_Dispatcher        (* [types.Dispatcher] *)
| dispatcher_Dispatcher.  (* [dispatcher.Dispatcher] *)

Definition isinstance (obj : pyobj) (c : pyclass) : bool :=
  match c, obj with
  | tuple_list, (PyTuple _ | PyList _) => true
  | types_Dispatcher, TypesDispatcher _ _ => true
  | dispatcher_Dispatcher, DispatcherObj _ _ _ => true
  | _, _ => false
  end.

Definition attrs_of (obj : pyobj) : attrs :=
  match obj with
  | TypesDispatcher _ a | DispatcherObj _ a _ => a
  | _ => {| py_func := None; key := NoKey |}
  end.

(** Induction over [pyobj] that reaches the items of the containers. *)
Section pyobj_nested_induction.
Variable P : pyobj -> Prop.
Hypothesis Htuple : forall items, Forall P items -> P (PyTuple items).
Hypothesis Hlist : forall items, Forall P items -> P (PyList items).
Hypothesis Hstr : forall s, P (PyStr s).
Hypothesis Htypes : forall oid a, P (TypesDispatcher oid a).
Hypothesis Hdisp : forall oid a ty, P ty -> P (DispatcherObj oid a ty).
Hypothesis Hother : forall oid, P (PyOther oid).

Fixpoint pyobj_nested_ind (obj : pyobj) : P obj :=
  let fix all (items : list pyobj) : Forall P items :=
    match items with
    | [] => List.Forall_nil P
    | i :: rest => List.Forall_cons P i rest (pyobj_nested_ind i) (all rest)
    end in
  match obj with
  | PyTuple items => Htuple items (all items)
  | PyList items => Hlist items (all items)
  | PyStr s => Hstr s
  | TypesDispatcher oid a => Htypes oid a
  | DispatcherObj oid a ty => Hdisp oid a ty (pyobj_nested_ind ty)
  | PyOther oid => Hother oid
  end.
End pyobj_nested_induction.

(** ** The helpers of [_index_key] *)

(** [_is_first_class_function]; [any(map(f, obj))] is [existsb f]. *)
Fixpoint _is_first_class_function (obj : pyobj) : bool :=
  match obj with
  | PyTuple items | PyList items => existsb _is_first_class_function items
  | DispatcherObj _ _ _type => _is_first_class_function _type
  | TypesDispatcher _ _ => true
  | PyStr _ | PyOther _ => false
  end.

(** [_compute_custom_key]. *)
Definition _compute_custom_key (typ : pyobj) : result pyobj :=
  f <- match py_func (attrs_of typ) with
       | Some f => Ok f                                  (* hasattr(typ, "py_func") *)
       | None =>
           match key (attrs_of typ) with                 (* typ.key().py_func *)
           | NoKey => Raise (AttributeError "key")
           | KeyNotCallable => Raise TypeError
           | KeyCall None => Raise (AttributeError "py_func")
           | KeyCall (Some f) => Ok f
           end
       end ;;
  Ok (PyTuple [PyStr (__module__ f); PyStr (__qualname__ f)]).

(** A list comprehension whose body can raise: items are evaluated from
    left to right and the first exception ends it. *)
Section comprehension.
Context {A B : Type} (body : A -> result B).

Fixpoint comprehension (iterable : list A) : result (list B) :=
  match iterable with
  | [] => Ok []
  | i :: rest =>
      v <- body i ;;
      vs <- comprehension rest ;;
      Ok (v :: vs)
  end.
End comprehension.

(** [map_only].  [map_only_item] is the body of its comprehension, the
    value computed for one [i]; the nested call [map_only(types, func, i)]
    is the comprehension over the items of [i], rebuilt as a tuple. *)
Fixpoint map_only_item (types : pyclass) (func : pyobj -> result pyobj)
    (i : pyobj) : result pyobj :=
  if isinstance i types then func i
  else
    match i with
    | PyTuple items | PyList items =>
        vs <- comprehension (map_only_item types func) items ;;
        Ok (PyTuple vs)
    | _ => Ok i
    end.

Definition map_only (types : pyclass) (func : pyobj -> result pyobj)
    (iterable : list pyobj) : result (list pyobj) :=
  comprehension (map_only_item types func) iterable.

(** [key[-1]] on a tuple. *)
Definition getitem_last (k : list pyobj) : result pyobj :=
  match last k with
  | Some x => Ok x
  | None => Raise IndexError
  end.

(** [x[0]]. *)
Definition getitem_0 (x : pyobj) : result pyobj :=
  match x with
  | PyTuple (y :: _) | PyList (y :: _) => Ok y
  | PyTuple [] | PyList [] => Raise IndexError
  | PyStr (String c _) => Ok (PyStr (String c EmptyString))
  | PyStr EmptyString => Raise IndexError
  | TypesDispatcher _ _ | DispatcherObj _ _ _ | PyOther _ => Raise TypeError
  end.

(** ** [ZFunctionCache] *)

(** [self]: the cache holds the function being compiled; of it the code
    reads [self._py_func.__closure__], [None] or the tuple of cells, each
    given here by its [cell_contents]. *)
Record py_function := {
  __closure__ : option (list pyobj)
}.

Record cache := {
  _py_func : py_function
}.

Section ZFunctionCache.
(** The collaborators: the code generator handle, the base class'
    [FunctionCache._index_key], [numba.core.serialize.dumps] and
    [hashlib.sha256(x).hexdigest()]. *)
Context {Codegen : Type}.
Variable super_index_key : cache -> list pyobj -> Codegen -> result (list pyobj).
Variable dumps : pyobj -> result (list byte).
Variable sha256_hexdigest : list byte -> string.

Definition hasher (x : list byte) : pyobj := PyStr (sha256_hexdigest x).

(** [ZFunctionCache._index_key]; [sig] is the tuple of argument
    types, the result is the key tuple. *)
Definition _index_key (self : cache) (sig : list pyobj) (codegen : Codegen)
    : result (list pyobj) :=
  k <- super_index_key self sig codegen ;;
  k <- (if existsb _is_first_class_function sig then
          sig <- map_only types_Dispatcher _compute_custom_key sig ;;
          Ok ([PyTuple sig] ++ drop 1 k)
        else Ok k) ;;
  match __closure__ (_py_func self) with
  | Some cvars =>
      if existsb _is_first_class_function cvars then
        cvars <- map_only dispatcher_Dispatcher _compute_custom_key cvars ;;
        cvarbytes <- dumps (PyTuple cvars) ;;
        x <- getitem_last k ;;
        x0 <- getitem_0 x ;;
        Ok (removelast k ++ [x0; hasher cvarbytes])
      else Ok k
  | None => Ok k
  end.

(** The two steps of [_index_key] after the call of the base class, each
    as a function of the key it starts from: lines 77-79 and lines
    81-88.  [index_key_steps] below puts them back together. *)
Definition signature_step (sig : list pyobj) (k : list pyobj)
    : result (list pyobj) :=
  if existsb _is_first_class_function sig then
    sig <- map_only types_Dispatcher _compute_custom_key sig ;;
    Ok ([PyTuple sig] ++ drop 1 k)
  else Ok k.

Definition closure_step (self : cache) (k : list pyobj)
    : result (list pyobj) :=
  match __closure__ (_py_func self) with
  | Some cvars =>
      if existsb _is_first_class_function cvars then
        cvars <- map_only dispatcher_Dispatcher _compute_custom_key cvars ;;
        cvarbytes <- dumps (PyTuple cvars) ;;
        x <- getitem_last k ;;
        x0 <- getitem_0 x ;;
        Ok (removelast k ++ [x0; hasher cvarbytes])
      else Ok k
  | None => Ok k
  end.

End ZFunctionCache.

(** ** The vocabulary of the specification *)

(** A Compiled-Function Reference is an instance of one of the two
    dispatcher classes; [holds_reference obj]: [obj] is one, or wraps one
    at some nesting depth of tuples and lists. *)
Fixpoint holds_reference (obj : pyobj) : bool :=
  match obj with
  | PyTuple items | PyList items => existsb holds_reference items
  | TypesDispatcher _ _ | DispatcherObj _ _ _ => true
  | PyStr _ | PyOther _ => false
  end.

(** The host builds every [dispatcher.Dispatcher] with
    [self._type = types.Dispatcher(self)]; [typed obj] says so of the
    objects in the tuples and lists of [obj]. *)
Fixpoint typed (obj : pyobj) : bool :=
  match obj with
  | PyTuple items | PyList items => forallb typed items
  | DispatcherObj _ _ _type => isinstance _type types_Dispatcher
  | TypesDispatcher _ _ | PyStr _ | PyOther _ => true
  end.

(** The function a reference was compiled from: its direct [py_func], or
    else the one of the object its [key()] gives. *)
Definition source_function (a : attrs) : option function :=
  match py_func a with
  | Some f => Some f
  | None =>
      match key a with
      | KeyCall referent => referent
      | NoKey | KeyNotCallable => None
      end
  end.

(** Stable Function Identity: the pair (module path, qualified name). *)
Definition stable_identity (f : function) : pyobj :=
  PyTuple [PyStr (__module__ f); PyStr (__qualname__ f)].

(** The rewriting in the words of the specification: every instance of
    the class [c] is replaced by its Stable Function Identity, at any
    nesting depth; containers come out as tuples, the rest is kept. *)
Unset Elimination Schemes.
Inductive rewritten (c : pyclass) : pyobj -> pyobj -> Prop :=
| rewritten_reference x f :
    isinstance x c = true ->
    source_function (attrs_of x) = Some f ->
    rewritten c x (stable_identity f)
| rewritten_tuple items items' :
    isinstance (PyTuple items) c = false ->
    Forall2 (rewritten c) items items' ->
    rewritten c (PyTuple items) (PyTuple items')
| rewritten_list items items' :
    isinstance (PyList items) c = false ->
    Forall2 (rewritten c) items items' ->
    rewritten c (PyList items) (PyTuple items')
| rewritten_other x :
    isinstance x c = false ->
    isinstance x tuple_list = false ->
    rewritten c x x.
Set Elimination Schemes.

(** The captured values the code calls [cvars]: [()] when the function
    has no closure, else the contents of its cells. *)
Definition closure_cells (self : cache) : list pyobj :=
  match __closure__ (_py_func self) with
  | Some cvars => cvars
  | None => []
  end.

(** A type descriptor tagged as carrying a compiled function that has
    neither a direct [py_func] nor a [key()] exposing one. *)
Definition malformed (obj : pyobj) : bool :=
  match obj with
  | TypesDispatcher _ a =>
      match py_func a, key a with
      | None, (NoKey | KeyNotCallable | KeyCall None) => true
      | _, _ => false
      end
  | _ => false
  end.

Fixpoint holds_malformed (obj : pyobj) : bool :=
  match obj with
  | PyTuple items | PyList items => existsb holds_malformed items
  | _ => malformed obj
  end.

(** A position inside nested containers: [plug c x] puts [x] there. *)
Inductive context :=
| Here
| InTuple (before : list pyobj) (c : context) (after : list pyobj)
| InList (before : list pyobj) (c : context) (after : list pyobj).

Fixpoint plug (c : context) (x : pyobj) : pyobj :=
  match c with
  | Here => x
  | InTuple before c after => PyTuple (before ++ plug c x :: after)
  | InList before c after => PyList (before ++ plug c x :: after)
  end.

(** What [map_only] makes of the neighbours of a position. *)
Fixpoint map_only_context (types : pyclass) (func : pyobj -> result pyobj)
    (c : context) : result context :=
  match c with
  | Here => Ok Here
  | InTuple before c after | InList before c after =>
      before' <- map_only types func before ;;
      c' <- map_only_context types func c ;;
      after' <- map_only types func after ;;
      Ok (InTuple before' c' after')
  end.

(** [as_tuples obj]: [obj] with every list of its nesting turned into a
    tuple.  Two values differ only in list versus tuple when their
    [as_tuples] agree. *)
Fixpoint as_tuples (obj : pyobj) : pyobj :=
  match obj with
  | PyTuple items | PyList items => PyTuple (map as_tuples items)
  | _ => obj
  end.

(** ** A concrete host, for the examples *)

Module Example.

(** A base key in the layout of the host's [FunctionCache._index_key]:
    [(sig, codegen.magic_tuple(), (hasher(codebytes), hasher(cvarbytes)))],
    with fixed strings for the magic tuple and the two hashes. *)
Definition base_index_key (self : cache) (sig : list pyobj) (codegen : unit)
    : result (list pyobj) :=
  Ok [PyTuple sig; PyStr "x86_64"; PyTuple [PyStr "h(code)"; PyStr "h(cvars)"]].

(** A toy serializer and digest: strings are written out, items of a
    tuple follow a [(] and end with [)], other objects are one byte. *)
Fixpoint dumps_bytes (x : pyobj) : list byte :=
  match x with
  | PyTuple items | PyList items =>
      x28 :: flat_map dumps_bytes items ++ [x29]
  | PyStr s => String.list_byte_of_string s ++ [x2c]
  | _ => [x3f]
  end.

Definition dumps (x : pyobj) : result (list byte) := Ok (dumps_bytes x).

Definition hexdigest (x : list byte) : string :=
  String.append "sha256:" (String.string_of_list_byte x).

Definition index_key := _index_key base_index_key dumps hexdigest.

Definition int64 : pyobj := PyOther 0.

Definition square : function := {| __module__ := "m"; __qualname__ := "square" |}.
Definition cube : function := {| __module__ := "m"; __qualname__ := "cube" |}.

(** A [types.Dispatcher]: no [py_func] of its own, [key()] gives the
    dispatcher. *)
Definition type_attrs (f : function) : attrs :=
  {| py_func := None; key := KeyCall (Some f) |}.

Definition type_of (oid : nat) (f : function) : pyobj :=
  TypesDispatcher oid (type_attrs f).

(** A [dispatcher.Dispatcher] compiled from [f]. *)
Definition jit (oid : nat) (f : function) : pyobj :=
  DispatcherObj oid {| py_func := Some f; key := NoKey |} (type_of (S oid) f).

(** A descriptor that exposes no function. *)
Definition broken : pyobj :=
  TypesDispatcher 9 {| py_func := None; key := KeyNotCallable |}.

Definition no_closure : cache := {| _py_func := {| __closure__ := None |} |}.
Definition closure (cvars : list pyobj) : cache :=
  {| _py_func := {| __closure__ := Some cvars |} |}.

End Example.

(** The nesting depth of a value: what a walk through it asks of the
    recursion limit. *)
Fixpoint height (obj : pyobj) : nat :=
  match obj with
  | PyTuple items | PyList items => S (list_max (map height items))
  | DispatcherObj _ _ _type => S (height _type)
  | PyStr _ | TypesDispatcher _ _ | PyOther _ => 1
  end.

(** ** The same code over a store

    For what the code does to the objects it is given, the objects live
    in a store and are named by their address; the code reads through
    addresses and builds its tuples and strings as new objects.  The
    temporaries of the source (the list of a comprehension, the slices
    and the one-element tuple around the rewritten signature) are left
    out. *)

Module Heap.

Abbreviation addr := nat.

Inductive object :=
| OTuple (items : list addr)
| OList (items : list addr)
| OStr (s : string)
| OTypesDispatcher (a : attrs)
| ODispatcher (a : attrs) (_type : addr)
| OOther.

Abbreviation store := (list object).

(** A computation runs from a store, returns or raises, and leaves a
    store. *)
Definition M (A : Type) : Type := store -> result A * store.

Definition ret {A} (a : A) : M A := fun st => (Ok a, st).

Definition raise {A} (e : exception) : M A := fun st => (Raise e, st).

Definition bind {A B} (m : M A) (k : A -> M B) : M B :=
  fun st =>
    match m st with
    | (Ok a, st') => k a st'
    | (Raise e, st') => (Raise e, st')
    end.

Notation "x <~ m ;; k" := (bind m (fun x => k))
  (at level 100, m at next level, right associativity).

(** Reading the object at an address, and building a new object. *)
Definition load (a : addr) : M object :=
  fun st =>
    match st !! a with
    | Some o => (Ok o, st)
    | None => (Raise (Raised "no object"), st)
    end.

Definition alloc (o : object) : M addr :=
  fun st => (Ok (length st), st ++ [o]).

Definition isinstance (o : object) (c : pyclass) : bool :=
  match c, o with
  | tuple_list, (OTuple _ | OList _) => true
  | types_Dispatcher, OTypesDispatcher _ => true
  | dispatcher_Dispatcher, ODispatcher _ _ => true
  | _, _ => false
  end.

Definition attrs_of (o : object) : attrs :=
  match o with
  | OTypesDispatcher a | ODispatcher a _ => a
  | _ => {| py_func := None; key := NoKey |}
  end.

(** The items an iteration goes through. *)
Definition iter (a : addr) : M (list addr) :=
  o <~ load a ;;
  match o with
  | OTuple items | OList items => ret items
  | _ => raise TypeError
  end.

(** [any(map(f, items))]: stops at the first [True]. *)
Fixpoint any (f : addr -> M bool) (items : list addr) : M bool :=
  match items with
  | [] => ret false
  | i :: rest =>
      b <~ f i ;;
      if b : bool then ret true else any f rest
  end.

Fixpoint comprehension {A B} (body : A -> M B) (iterable : list A)
    : M (list B) :=
  match iterable with
  | [] => ret []
  | i :: rest =>
      v <~ body i ;;
      vs <~ comprehension body rest ;;
      ret (v :: vs)
  end.

(** [_is_first_class_function]; [depth] is what is left of the
    interpreter's recursion limit. *)
Fixpoint _is_first_class_function (depth : nat) (obj : addr) : M bool :=
  match depth with
  | 0 => raise RecursionError
  | S depth =>
      o <~ load obj ;;
      match o with
      | OTuple items | OList items =>
          any (_is_first_class_function depth) items
      | ODispatcher _ _type => _is_first_class_function depth _type
      | OTypesDispatcher _ => ret true
      | OStr _ | OOther => ret false
      end
  end.

(** [_compute_custom_key]; the two strings are put in the store as the
    pair is built. *)
Definition _compute_custom_key (typ : addr) : M addr :=
  o <~ load typ ;;
  f <~ match py_func (attrs_of o) with
       | Some f => ret f
       | None =>
           match key (attrs_of o) with
           | NoKey => raise (AttributeError "key")
           | KeyNotCallable => raise TypeError
           | KeyCall None => raise (AttributeError "py_func")
           | KeyCall (Some f) => ret f
           end
       end ;;
  m <~ alloc (OStr (__module__ f)) ;;
  q <~ alloc (OStr (__qualname__ f)) ;;
  alloc (OTuple [m; q]).

(** [map_only]: the address of the new tuple. *)
Fixpoint map_only (depth : nat) (types : pyclass) (func : addr -> M addr)
    (iterable : addr) : M addr :=
  match depth with
  | 0 => raise RecursionError
  | S depth =>
      items <~ iter iterable ;;
      vs <~ comprehension
              (fun i =>
                 o <~ load i ;;
                 if isinstance o types then func i
                 else if isinstance o tuple_list
                      then map_only depth types func i
                      else ret i)
              items ;;
      alloc (OTuple vs)
  end.

Definition getitem_last (k : list addr) : M addr :=
  match last k with
  | Some x => ret x
  | None => raise IndexError
  end.

Definition getitem_0 (x : addr) : M addr :=
  o <~ load x ;;
  match o with
  | OTuple (y :: _) | OList (y :: _) => ret y
  | OTuple [] | OList [] => raise IndexError
  | OStr (String c _) => alloc (OStr (String c EmptyString))
  | OStr EmptyString => raise IndexError
  | OTypesDispatcher _ | ODispatcher _ _ | OOther => raise TypeError
  end.

(** [self._py_func.__closure__]: [None], or the addresses of the
    contents of the cells. *)
Record hcache := {
  h__closure__ : option (list addr)
}.

Section ZFunctionCache.
Variable super_index_key : hcache -> addr -> addr -> M addr.
Variable dumps : addr -> M (list byte).
Variable sha256_hexdigest : list byte -> string.
Variable depth : nat.

Definition _index_key (self : hcache) (sig codegen : addr) : M addr :=
  k <~ super_index_key self sig codegen ;;
  k <~ (items <~ iter sig ;;
        b <~ any (_is_first_class_function depth) items ;;
        if b : bool then
          sig <~ map_only depth types_Dispatcher _compute_custom_key sig ;;
          ks <~ iter k ;;
          alloc (OTuple ([sig] ++ drop 1 ks))
        else ret k) ;;
  match h__closure__ self with
  | Some cells =>
      cvars <~ alloc (OTuple cells) ;;
      b <~ any (_is_first_class_function depth) cells ;;
      if b : bool then
        cvars <~ map_only depth dispatcher_Dispatcher _compute_custom_key cvars ;;
        cvarbytes <~ dumps cvars ;;
        ks <~ iter k ;;
        x <~ getitem_last ks ;;
        x0 <~ getitem_0 x ;;
        h <~ alloc (OStr (sha256_hexdigest cvarbytes)) ;;
        alloc (OTuple (removelast ks ++ [x0; h]))
      else ret k
  | None => ret k
  end.

(** Its two steps after the call of the base class, as for the value-level
    code. *)
Definition signature_step (sig : addr) (k : addr) : M addr :=
  items <~ iter sig ;;
  b <~ any (_is_first_class_function depth) items ;;
  if b : bool then
    sig <~ map_only depth types_Dispatcher _compute_custom_key sig ;;
    ks <~ iter k ;;
    alloc (OTuple ([sig] ++ drop 1 ks))
  else ret k.

Definition closure_step (self : hcache) (k : addr) : M addr :=
  match h__closure__ self with
  | Some cells =>
      cvars <~ alloc (OTuple cells) ;;
      b <~ any (_is_first_class_function depth) cells ;;
      if b : bool then
        cvars <~ map_only depth dispatcher_Dispatcher _compute_custom_key cvars ;;
        cvarbytes <~ dumps cvars ;;
        ks <~ iter k ;;
        x <~ getitem_last ks ;;
        x0 <~ getitem_0 x ;;
        h <~ alloc (OStr (sha256_hexdigest cvarbytes)) ;;
        alloc (OTuple (removelast ks ++ [x0; h]))
      else ret k
  | None => ret k
  end.

End ZFunctionCache.

(** [repr st a v]: the object at address [a] of the store [st] is the
    value [v]; the identity of an object is its address. *)
Unset Elimination Schemes.
Inductive repr (st : store) : addr -> pyobj -> Prop :=
| repr_tuple a items vs :
    st !! a = Some (OTuple items) ->
    Forall2 (repr st) items vs ->
    repr st a (PyTuple vs)
| repr_list a items vs :
    st !! a = Some (OList items) ->
    Forall2 (repr st) items vs ->
    repr st a (PyList vs)
| repr_str a s :
    st !! a = Some (OStr s) ->
    repr st a (PyStr s)
| repr_types a attr :
    st !! a = Some (OTypesDispatcher attr) ->
    repr st a (TypesDispatcher a attr)
| repr_dispatcher a attr ty tyv :
    st !! a = Some (ODispatcher attr ty) ->
    repr st ty tyv ->
    repr st a (DispatcherObj a attr tyv)
| repr_other a :
    st !! a = Some OOther ->
    repr st a (PyOther a).
Set Elimination Schemes.

(** The captured values of the two models agree. *)
Definition repr_closure (st : store) (hself : hcache) (self : cache)
    : Prop :=
  match h__closure__ hself, __closure__ (_py_func self) with
  | Some cells, Some cvars => Forall2 (repr st) cells cvars
  | None, None => True
  | _, _ => False
  end.

(** [outcome st r st' R]: the run that ended with [r], leaving [st']
    from [st], changed no object and ended as the result [R] of the
    value-level code: it raised the same exception, or returned the
    address of the value returned there. *)
Definition outcome {A B} (rel : store -> A -> B -> Prop)
    (st : store) (run : result A * store) (R : result B) : Prop :=
  st `prefix_of` run.2 /\
  match run.1, R with
  | Ok a, Ok v => rel run.2 a v
  | Raise e, Raise e' => e = e'
  | _, _ => False
  end.

(** [extends m]: whatever the store [m] runs from, the store it leaves
    has the same objects at the same addresses, and maybe new ones after
    them. *)
Definition extends {A} (m : M A) : Prop :=
  forall st, st `prefix_of` (m st).2.

End Heap.


(** ** A concrete host over the store, for the examples *)

Module HeapExample.
Import Heap.

(** The base key in the host's layout, built in the store. *)
Definition base_index_key (self : hcache) (sig codegen : addr) : M addr :=
  m <~ alloc (OStr "x86_64") ;;
  c <~ alloc (OStr "h(code)") ;;
  v <~ alloc (OStr "h(cvars)") ;;
  h <~ alloc (OTuple [c; v]) ;;
  alloc (OTuple [sig; m; h]).

(** A serializer that writes one byte whatever it is given, over the
    values and over the store. *)
Definition dumps_value (x : pyobj) : result (list byte) := Ok [x2e].
Definition dumps (x : addr) : M (list byte) := ret [x2e].

(** A store: [int64], the type and the dispatcher of a compiled [square],
    the signature [(int64, type of square)] and a code generator. *)
Definition square_attrs : attrs :=
  {| py_func := Some Example.square; key := NoKey |}.

Definition objects : store :=
  [ OOther;
    OTypesDispatcher (Example.type_attrs Example.square);
    ODispatcher square_attrs 1;
    OTuple [0; 1];
    OOther ].

(** The function being compiled captures the dispatcher. *)
Definition self : hcache := {| h__closure__ := Some [2] |}.

Definition self_value : cache :=
  Example.closure
    [DispatcherObj 2 square_attrs
       (TypesDispatcher 1 (Example.type_attrs Example.square))].

Definition sig_value : list pyobj :=
  [PyOther 0; TypesDispatcher 1 (Example.type_attrs Example.square)].

Definition index_key : M addr :=
  _index_key base_index_key dumps Example.hexdigest 8 self 3 4.

End HeapExample.


(** ** Further vocabulary: what the rewriting meets *)

(** [holds_instance c obj]: [obj] is an instance of the class [c], or
    wraps one at some nesting depth of tuples and lists. *)
Fixpoint holds_instance (c : pyclass) (obj : pyobj) : bool :=
  isinstance obj c ||
  match obj with
  | PyTuple items | PyList items => existsb (holds_instance c) items
  | _ => false
  end.

(** [holds_lacking c obj]: on its way through [obj], [map_only] with the
    class [c] meets an instance of [c] that gives no source function. *)
Fixpoint holds_lacking (c : pyclass) (obj : pyobj) : bool :=
  if isinstance obj c then
    match source_function (attrs_of obj) with
    | Some _ => false
    | None => true
    end
  else
    match obj with
    | PyTuple items | PyList items => existsb (holds_lacking c) items
    | _ => false
    end.

(** The exceptions [_compute_custom_key] can end in. *)
Definition introspection_error (e : exception) : Prop :=
  e = AttributeError "key" \/ e = TypeError \/ e = AttributeError "py_func".

(** A store with a list that holds itself, and a signature around it. *)
Module CyclicExample.
Import Heap.

Definition objects : store :=
  [ OList [0; 2];
    OTuple [0];
    OOther ].

End CyclicExample.


(** ** Type descriptors of the host *)

(** Modelled from the spec: the Type Descriptors of a Call Signature,
    "polymorphic over {Scalar Type, Compiled-Function Reference,
    Container Type (tuple/list of descriptors)}"; the host's classes for
    them are not under src/.  A container descriptor of the host, the
    type of a tuple or list argument, is an object of a class of the host
    that holds its member descriptors: it is no Python tuple or list and
    no dispatcher type, so each [isinstance] test of the code sees it as
    any other object. *)
Unset Elimination Schemes.
Set Elimination Schemes.



(** ** A serializer that leaves a mark *)

Module MemoExample.
Import Heap.

(** What the serializer makes of an object it has serialized: a type
    descriptor keeps its source function as its own [py_func]. *)
Definition memoized (o : object) : object :=
  match o with
  | OTypesDispatcher a =>
      OTypesDispatcher {| py_func := source_function a; key := key a |}
  | _ => o
  end.

(** The serializer: the same byte whatever it is given, and the mark on
    each item of the tuple. *)
Definition dumps (x : addr) : M (list byte) :=
  items <~ iter x ;;
  fun st => (Ok [x2e], foldr (alter memoized) st items).

(** The function being compiled captures the type descriptor of
    [HeapExample.objects] and the dispatcher. *)
Definition self : hcache := {| h__closure__ := Some [1; 2] |}.

Definition index_key : M addr :=
  _index_key HeapExample.base_index_key dumps Example.hexdigest 8 self 3 4.

End MemoExample.


(** ** Results and comprehensions *)

Lemma bind_Ok {A B} (m : result A) (k : A -> result B) (b : B) :
  bind m k = Ok b <-> exists a, m = Ok a /\ k a = Ok b.
Proof.
  destruct m as [a|e]; simpl; split.
  - eauto.
  - by intros (a' & [= <-] & Hk).
  - done.
  - by intros (a' & [=] & _).
Qed.

Lemma comprehension_Forall2 {A B} (body : A -> result B) xs ys :
  comprehension body xs = Ok ys <-> Forall2 (fun x y => body x = Ok y) xs ys.
Proof.
  revert ys. induction xs as [|x xs IH]; intros ys; simpl.
  - split; [intros [= <-]; constructor | by inversion 1].
  - rewrite bind_Ok. split.
    + intros (v & Hv & Hrest). apply bind_Ok in Hrest as (vs & Hvs & [= <-]).
      constructor; [done | by apply IH].
    + inversion 1 as [|? v ? vs Hv Hvs]; subst. exists v. split; [done|].
      apply IH in Hvs. by rewrite Hvs.
Qed.

Lemma comprehension_app {A B} (body : A -> result B) xs ys :
  comprehension body (xs ++ ys) =
    (vs <- comprehension body xs ;;
     ws <- comprehension body ys ;;
     Ok (vs ++ ws)).
Proof.
  induction xs as [|x xs IH]; simpl.
  - by destruct (comprehension body ys).
  - destruct (body x) as [v|e]; simpl; [|done]. rewrite IH.
    destruct (comprehension body xs) as [vs|e]; simpl; [|done].
    by destruct (comprehension body ys).
Qed.

Lemma comprehension_raises {A B} (body : A -> result B) xs :
  Exists (fun x => raises (body x)) xs -> raises (comprehension body xs).
Proof.
  induction 1 as [x xs [e He]|x xs _ [e IH]]; simpl.
  - rewrite He. by exists e.
  - destruct (body x) as [v|e']; simpl; [|by exists e'].
    rewrite IH. by exists e.
Qed.

(** ** The scan *)

Lemma existsb_false_Forall {A} (f : A -> bool) xs :
  existsb f xs = false <-> Forall (fun x => f x = false) xs.
Proof.
  induction xs as [|x xs IH]; simpl.
  - split; [constructor | done].
  - rewrite orb_false_iff, IH. split.
    + intros [??]. by constructor.
    + by inversion 1.
Qed.

Lemma existsb_true_Exists {A} (f : A -> bool) xs :
  existsb f xs = true <-> Exists (fun x => f x = true) xs.
Proof.
  rewrite existsb_exists, Exists_exists. split.
  - intros (x & Hin & Hx). exists x. by rewrite list_elem_of_In.
  - intros (x & Hin & Hx). exists x. by rewrite <- list_elem_of_In.
Qed.

(** The scan finds nothing where there is no reference. *)
Lemma scan_sound obj :
  holds_reference obj = false -> _is_first_class_function obj = false.
Proof.
  induction obj as [items IH|items IH|s|oid a|oid a ty _|oid]
    using pyobj_nested_ind; simpl; try done.
  all: rewrite !existsb_false_Forall, !Forall_forall in *; auto.
Qed.

Lemma forallb_true_Forall {A} (f : A -> bool) xs :
  forallb f xs = true <-> Forall (fun x => f x = true) xs.
Proof.
  induction xs as [|x xs IH]; simpl.
  - split; [constructor | done].
  - rewrite andb_true_iff, IH. split.
    + intros [??]. by constructor.
    + by inversion 1.
Qed.

(** The scan finds every reference, when the dispatcher objects carry
    their type. *)
Lemma scan_complete obj :
  typed obj = true -> holds_reference obj = true ->
  _is_first_class_function obj = true.
Proof.
  induction obj as [items IH|items IH|s|oid a|oid a ty _|oid]
    using pyobj_nested_ind; simpl; try done.
  1, 2: rewrite forallb_true_Forall, !existsb_true_Exists, Exists_exists;
    rewrite !Forall_forall in *; intros Hty (x & Hin & Hx);
    apply Exists_exists; exists x; auto.
  intros Hty _. by destruct ty.
Qed.

Lemma scan_items items :
  forallb typed items = true -> existsb holds_reference items = true ->
  existsb _is_first_class_function items = true.
Proof. exact (scan_complete (PyTuple items)). Qed.

Lemma scan_items_sound items :
  existsb holds_reference items = false ->
  existsb _is_first_class_function items = false.
Proof. exact (scan_sound (PyTuple items)). Qed.

(** ** The rewriting *)

Lemma compute_custom_key_Ok typ y :
  _compute_custom_key typ = Ok y <->
  exists f, source_function (attrs_of typ) = Some f /\ y = stable_identity f.
Proof.
  unfold _compute_custom_key, source_function, stable_identity.
  destruct (py_func (attrs_of typ)) as [f|]; simpl.
  - split; [intros [= <-]; eauto | by intros (? & [= <-] & ->)].
  - destruct (key (attrs_of typ)) as [| |[f|]]; simpl;
      (split; [intros [= <-]; eauto | by intros (? & [= <-] & ->)]).
Qed.

Lemma map_only_item_instance types func i :
  isinstance i types = true -> map_only_item types func i = func i.
Proof. intros H. destruct i; simpl in *; by rewrite ?H. Qed.

Lemma map_only_item_container types func items :
  types <> tuple_list ->
  map_only_item types func (PyTuple items) =
    (vs <- map_only types func items ;; Ok (PyTuple vs)) /\
  map_only_item types func (PyList items) =
    (vs <- map_only types func items ;; Ok (PyTuple vs)).
Proof. by destruct types. Qed.

Lemma Forall2_iff_Forall {A B} (P Q : A -> B -> Prop) xs ys :
  Forall (fun x => forall y, P x y <-> Q x y) xs ->
  Forall2 P xs ys <-> Forall2 Q xs ys.
Proof.
  intros H. revert ys. induction H as [|x xs Hx _ IH]; intros ys.
  - split; inversion 1; constructor.
  - split; inversion 1; subst; constructor; try by apply Hx. all: by apply IH.
Qed.

(** [map_only] with [_compute_custom_key] carries out the rewriting of the
    specification: it returns exactly when the rewriting is defined, and
    returns the rewritten value. *)
Lemma map_only_item_rewritten c x y :
  map_only_item c _compute_custom_key x = Ok y <-> rewritten c x y.
Proof.
  revert y.
  induction x as [items IH|items IH|s|oid a|oid a ty _|oid]
    using pyobj_nested_ind; intros y.
  1, 2: destruct c; simpl.
  1, 4: rewrite compute_custom_key_Ok; split;
    [ intros (f & [=] & _)
    | inversion 1; subst; unfold source_function in *; simpl in *; congruence ].
  1, 2, 3, 4: rewrite bind_Ok; split;
    [ intros (vs & Hvs & [= <-]); constructor; [done|];
      apply comprehension_Forall2 in Hvs;
      by apply (Forall2_iff_Forall _ _ _ _ IH)
    | inversion 1; subst; simpl in *; try congruence;
      eexists; split; [|done];
        apply comprehension_Forall2; by apply (Forall2_iff_Forall _ _ _ _ IH) ].
  all: match goal with |- context [map_only_item ?k _ ?x] =>
    destruct (isinstance x k) eqn:Hc end.
  all: try (rewrite (map_only_item_instance _ _ _ Hc), compute_custom_key_Ok;
    split; [ intros (f & Hf & ->); by econstructor
           | inversion 1; subst; simpl in *; try congruence; eauto ]).
  all: destruct c; simpl in Hc |- *; try done.
  all: split; [ intros [= <-]; by constructor
              | inversion 1; subst; simpl in *; congruence ].
Qed.

Lemma map_only_rewritten c xs ys :
  map_only c _compute_custom_key xs = Ok ys <-> Forall2 (rewritten c) xs ys.
Proof.
  unfold map_only. rewrite comprehension_Forall2.
  apply Forall2_iff_Forall, Forall_forall. intros x _ y.
  apply map_only_item_rewritten.
Qed.

(** ** Positions *)

Lemma comprehension_middle {A B} (body : A -> result B) xs x ys r :
  comprehension body (xs ++ x :: ys) = Ok r <->
  exists xs' x' ys',
    comprehension body xs = Ok xs' /\ body x = Ok x' /\
    comprehension body ys = Ok ys' /\ r = xs' ++ x' :: ys'.
Proof.
  rewrite comprehension_Forall2, Forall2_app_inv_l. split.
  - intros (xs' & r' & Hxs & Hr & ->).
    apply Forall2_cons_inv_l in Hr as (x' & ys' & Hx & Hys & ->).
    exists xs', x', ys'. by rewrite !comprehension_Forall2.
  - intros (xs' & x' & ys' & Hxs & Hx & Hys & ->).
    exists xs', (x' :: ys'). rewrite <- comprehension_Forall2.
    split; [done|]. split; [|done]. constructor; [done|].
    by apply comprehension_Forall2.
Qed.

Lemma existsb_middle {A} (f : A -> bool) xs x ys :
  f x = true -> existsb f (xs ++ x :: ys) = true.
Proof. intros Hx. rewrite existsb_app. simpl. rewrite Hx. apply orb_true_r. Qed.

(** The scan finds what it finds at the top, at any depth. *)
Lemma scan_plug c x :
  _is_first_class_function x = true ->
  _is_first_class_function (plug c x) = true.
Proof.
  intros Hx. induction c as [|before c IH after|before c IH after]; simpl;
    [done | by apply existsb_middle..].
Qed.

Lemma plug_inj c x y : plug c x = plug c y -> x = y.
Proof.
  induction c as [|before c IH after|before c IH after]; simpl; [done|..].
  all: intros [= H]; apply app_inv_head in H; injection H as H; auto.
Qed.

(** [map_only] at a position: the neighbours are rewritten on their own,
    and what stands at the position is rewritten as if it stood alone. *)
Lemma map_only_item_plug types func c x y :
  types <> tuple_list ->
  map_only_item types func (plug c x) = Ok y <->
  exists c' x',
    map_only_context types func c = Ok c' /\
    map_only_item types func x = Ok x' /\ y = plug c' x'.
Proof.
  intros Hty. revert y.
  induction c as [|before c IH after|before c IH after]; intros y.
  { simpl. split.
    - intros Hx. by exists Here, y.
    - by intros (c' & x' & [= <-] & Hx & ->). }
  all: simpl plug;
    rewrite ?(proj1 (map_only_item_container _ _ _ Hty)),
            ?(proj2 (map_only_item_container _ _ _ Hty));
    unfold map_only; rewrite bind_Ok; split.
  1, 3: intros (vs & Hvs & [= <-]);
    apply comprehension_middle in Hvs
      as (before' & v & after' & Hb & Hv & Ha & ->);
    apply IH in Hv as (c' & x' & Hc & Hx & ->);
    exists (InTuple before' c' after'), x'; simpl; unfold map_only;
    by rewrite Hb, Hc, Ha.
  all: intros (c0 & x' & Hc & Hx & ->); simpl in Hc;
    apply bind_Ok in Hc as (before' & Hb & Hc);
    apply bind_Ok in Hc as (c' & Hc & Ha);
    apply bind_Ok in Ha as (after' & Ha & [= <-]);
    exists (before' ++ plug c' x' :: after'); (split; [|done]);
    apply comprehension_middle; exists before', (plug c' x'), after';
    (split; [done|]); (split; [|done]); apply IH; by exists c', x'.
Qed.

(** The same for a position in the signature or in the captured values,
    which are the items of a tuple. *)
Lemma map_only_plug types func before c after x ys :
  types <> tuple_list ->
  map_only types func (before ++ plug c x :: after) = Ok ys <->
  exists before' c' after' x',
    map_only types func before = Ok before' /\
    map_only_context types func c = Ok c' /\
    map_only types func after = Ok after' /\
    map_only_item types func x = Ok x' /\
    ys = before' ++ plug c' x' :: after'.
Proof.
  intros Hty. unfold map_only at 1. rewrite comprehension_middle. split.
  - intros (before' & v & after' & Hb & Hv & Ha & ->).
    apply map_only_item_plug in Hv as (c' & x' & Hc & Hx & ->); [|done].
    by exists before', c', after', x'.
  - intros (before' & c' & after' & x' & Hb & Hc & Ha & Hx & ->).
    exists before', (plug c' x'), after'. split; [done|].
    split; [|done]. apply map_only_item_plug; [done|]. by exists c', x'.
Qed.


Lemma map_only_item_plug_eq types func c x y :
  types <> tuple_list ->
  map_only_item types func x = map_only_item types func y ->
  map_only_item types func (plug c x) = map_only_item types func (plug c y).
Proof.
  intros Hty Hxy.
  induction c as [|before c IH after|before c IH after]; simpl plug; [done|..].
  - rewrite !(proj1 (map_only_item_container _ _ _ Hty)). unfold map_only.
    rewrite !comprehension_app. simpl. by rewrite IH.
  - rewrite !(proj2 (map_only_item_container _ _ _ Hty)). unfold map_only.
    rewrite !comprehension_app. simpl. by rewrite IH.
Qed.

Lemma map_only_plug_eq types func before c after x y :
  types <> tuple_list ->
  map_only_item types func x = map_only_item types func y ->
  map_only types func (before ++ plug c x :: after) =
  map_only types func (before ++ plug c y :: after).
Proof.
  intros Hty Hxy. unfold map_only. rewrite !comprehension_app. simpl.
  by rewrite (map_only_item_plug_eq _ _ c x y Hty Hxy).
Qed.

(** ** Malformed descriptors *)

Lemma malformed_raises obj :
  malformed obj = true ->
  isinstance obj types_Dispatcher = true /\ raises (_compute_custom_key obj).
Proof.
  destruct obj as [| | |oid [[f|] k]| |]; try done. simpl. intros Hk.
  split; [done|]. unfold _compute_custom_key. simpl.
  destruct k as [| |[f|]]; try done; simpl; by eexists.
Qed.

Lemma holds_malformed_scan obj :
  holds_malformed obj = true -> _is_first_class_function obj = true.
Proof.
  induction obj as [items IH|items IH|s|oid a|oid a ty _|oid]
    using pyobj_nested_ind; simpl; try done.
  all: rewrite !existsb_true_Exists, !Exists_exists.
  all: rewrite Forall_forall in IH.
  all: intros (x & Hin & Hx); exists x; auto.
Qed.

Lemma holds_malformed_raises obj :
  holds_malformed obj = true ->
  raises (map_only_item types_Dispatcher _compute_custom_key obj).
Proof.
  induction obj as [items IH|items IH|s|oid a|oid a ty _|oid]
    using pyobj_nested_ind; try done.
  1, 2: simpl; rewrite existsb_true_Exists; intros Hex;
    assert (Hr : raises (comprehension
      (map_only_item types_Dispatcher _compute_custom_key) items))
      by (apply comprehension_raises;
          rewrite Forall_forall in IH; rewrite Exists_exists in Hex |- *;
          destruct Hex as (x & Hin & Hx); exists x; auto);
    destruct Hr as [e ->]; by exists e.
  intros Hm. by apply (malformed_raises (TypesDispatcher oid a)) in Hm as [_ Hm].
Qed.


(** ** Lists and tuples *)













(** ** The derived key *)

Section properties.
Context {Codegen : Type}.
Variable super_index_key : cache -> list pyobj -> Codegen -> result (list pyobj).
Variable dumps : pyobj -> result (list byte).
Variable sha256_hexdigest : list byte -> string.

Local Abbreviation index_key := (_index_key super_index_key dumps sha256_hexdigest).

(** The closure step leaves the key alone when the scan of the captured
    values finds nothing. *)
Lemma index_key_plain_closure self sig codegen :
  existsb _is_first_class_function (closure_cells self) = false ->
  index_key self sig codegen =
    (k <- super_index_key self sig codegen ;;
     if existsb _is_first_class_function sig then
       sig' <- map_only types_Dispatcher _compute_custom_key sig ;;
       Ok (PyTuple sig' :: drop 1 k)
     else Ok k).
Proof.
  unfold _index_key, closure_cells. intros Hc.
  destruct (super_index_key self sig codegen) as [k|e]; simpl; [|done].
  destruct (__closure__ (_py_func self)) as [cvars|].
  - rewrite Hc. destruct (existsb _ sig); simpl; [|done].
    by destruct (map_only _ _ sig).
  - destruct (existsb _ sig); simpl; [|done].
    by destruct (map_only _ _ sig).
Qed.

(** C1. Baseline equivalence: when neither the signature nor the closure
    cells hold a Compiled-Function Reference, at any nesting depth of
    tuples and lists, [ZFunctionCache._index_key] gives what the base
    [FunctionCache._index_key] gives, unchanged. *)
Theorem baseline_equivalence self sig codegen :
  existsb holds_reference sig = false ->
  existsb holds_reference (closure_cells self) = false ->
  index_key self sig codegen = super_index_key self sig codegen.
Proof.
  intros Hsig Hcl.
  rewrite index_key_plain_closure by by apply scan_items_sound.
  rewrite (scan_items_sound _ Hsig).
  by destruct (super_index_key self sig codegen).
Qed.

(** C2. Signature rewrite: when the signature holds a reference and the
    closure holds none, the key is the baseline key [K0] with its
    leading element replaced by the rewritten signature, in which every
    [types.Dispatcher] descriptor has become its (module path, qualified
    name) pair; every later element of [K0] is kept, the trailing code
    hash among them. *)
Theorem signature_rewrite_keeps_code_hash self sig sig' codegen K0 :
  existsb holds_reference sig = true ->
  forallb typed sig = true ->
  existsb holds_reference (closure_cells self) = false ->
  super_index_key self sig codegen = Ok K0 ->
  Forall2 (rewritten types_Dispatcher) sig sig' ->
  exists k,
    index_key self sig codegen = Ok k /\
    k !! 0 = Some (PyTuple sig') /\
    (forall i, 1 <= i -> k !! i = K0 !! i) /\
    (2 <= length K0 -> last k = last K0).
Proof.
  intros Hsig Hty Hcl HK0 Hrw.
  exists (PyTuple sig' :: drop 1 K0).
  rewrite index_key_plain_closure by by apply scan_items_sound.
  rewrite HK0, (scan_items _ Hty Hsig). simpl.
  apply map_only_rewritten in Hrw. rewrite Hrw. simpl.
  split; [done|]. split; [done|]. split.
  - intros [|i] Hi; [lia|]. simpl. by rewrite lookup_drop.
  - destruct K0 as [|k0 [|k1 rest]]; simpl; [lia..|]. intros _.
    by rewrite ?drop_0, ?last_cons_cons.
Qed.

Lemma index_key_steps self sig codegen :
  index_key self sig codegen =
    (k <- super_index_key self sig codegen ;;
     k <- signature_step sig k ;;
     closure_step dumps sha256_hexdigest self k).
Proof. reflexivity. Qed.

Lemma signature_step_rewrites sig k :
  existsb _is_first_class_function sig = true ->
  signature_step sig k =
    (sig' <- map_only types_Dispatcher _compute_custom_key sig ;;
     Ok (PyTuple sig' :: drop 1 k)).
Proof. unfold signature_step. by intros ->. Qed.

(** On a key of two elements or more the closure step does not look at
    the leading element. *)
Lemma closure_step_cons self x k :
  k <> [] ->
  closure_step dumps sha256_hexdigest self (x :: k) =
    (r <- closure_step dumps sha256_hexdigest self k ;; Ok (x :: r)).
Proof.
  intros Hk. unfold closure_step.
  destruct (__closure__ (_py_func self)) as [cvars|]; [|done].
  destruct (existsb _ cvars); [|done].
  destruct (map_only _ _ cvars) as [cvars'|e]; simpl; [|done].
  destruct (dumps _) as [cvarbytes|e]; simpl; [|done].
  destruct k as [|y k]; [done|]. unfold getitem_last.
  rewrite last_cons_cons.
  destruct (last (y :: k)) as [z|]; simpl; [|done].
  by destruct (getitem_0 z).
Qed.

Lemma scan_position before c after x :
  _is_first_class_function x = true ->
  existsb _is_first_class_function (before ++ plug c x :: after) = true.
Proof. intros Hx. by apply existsb_middle, scan_plug. Qed.

(** C4. Identity substitution determinism: two type-level references [a]
    and [b] compiled from the same source function (equal module path
    and equal qualified name), be they distinct instances, give the same
    key when either stands at the same position of an otherwise
    identical signature; the baseline keys of the two signatures are
    taken to differ in their leading, signature-derived element only. *)
Theorem identity_substitution_determinism
    self codegen before c after oa aa ob ab fa fb ka kb rest :
  source_function aa = Some fa ->
  source_function ab = Some fb ->
  __module__ fa = __module__ fb ->
  __qualname__ fa = __qualname__ fb ->
  super_index_key self (before ++ plug c (TypesDispatcher oa aa) :: after)
    codegen = Ok (ka :: rest) ->
  super_index_key self (before ++ plug c (TypesDispatcher ob ab) :: after)
    codegen = Ok (kb :: rest) ->
  index_key self (before ++ plug c (TypesDispatcher oa aa) :: after) codegen =
  index_key self (before ++ plug c (TypesDispatcher ob ab) :: after) codegen.
Proof.
  intros Hfa Hfb Hm Hq Ha Hb.
  rewrite !index_key_steps, Ha, Hb. simpl.
  rewrite !signature_step_rewrites by by apply scan_position.
  assert (Hab : map_only_item types_Dispatcher _compute_custom_key
                  (TypesDispatcher oa aa) =
                map_only_item types_Dispatcher _compute_custom_key
                  (TypesDispatcher ob ab)).
  { simpl.
    rewrite (proj2 (compute_custom_key_Ok (TypesDispatcher oa aa) _)
               (ex_intro _ fa (conj Hfa eq_refl))).
    rewrite (proj2 (compute_custom_key_Ok (TypesDispatcher ob ab) _)
               (ex_intro _ fb (conj Hfb eq_refl))).
    unfold stable_identity. by rewrite Hm, Hq. }
  assert (Hty : types_Dispatcher <> tuple_list) by done.
  by rewrite (map_only_plug_eq _ _ before c after _ _ Hty Hab).
Qed.

(** C5. Discrimination: two type-level references whose (module path,
    qualified name) pairs differ give different keys when each stands at
    the same position of an otherwise identical signature: if the key
    for the first is returned, the key for the second is returned too,
    and is another one.  The baseline keys are taken to have a second
    element and to differ in their leading element only. *)
Theorem discrimination
    self codegen before c after oa aa ob ab fa fb ka kb rest keyA :
  source_function aa = Some fa ->
  source_function ab = Some fb ->
  (__module__ fa, __qualname__ fa) <> (__module__ fb, __qualname__ fb) ->
  super_index_key self (before ++ plug c (TypesDispatcher oa aa) :: after)
    codegen = Ok (ka :: rest) ->
  super_index_key self (before ++ plug c (TypesDispatcher ob ab) :: after)
    codegen = Ok (kb :: rest) ->
  rest <> [] ->
  index_key self (before ++ plug c (TypesDispatcher oa aa) :: after) codegen
    = Ok keyA ->
  exists keyB,
    index_key self (before ++ plug c (TypesDispatcher ob ab) :: after) codegen
      = Ok keyB /\
    keyA <> keyB.
Proof.
  intros Hfa Hfb Hne Ha Hb Hrest HkeyA.
  rewrite index_key_steps, Ha in HkeyA. simpl in HkeyA.
  rewrite signature_step_rewrites in HkeyA by by apply scan_position.
  apply bind_Ok in HkeyA as (k1 & Hk1 & HkeyA).
  apply bind_Ok in Hk1 as (sigA & HsigA & [= <-]).
  rewrite closure_step_cons in HkeyA by done.
  apply bind_Ok in HkeyA as (r & Hr & [= <-]).
  apply map_only_plug in HsigA
    as (before' & c' & after' & x' & Hbefore & Hc & Hafter & Hx & ->);
    [|done].
  simpl in Hx. apply compute_custom_key_Ok in Hx as (fa' & Hfa' & ->).
  simpl in Hfa'. assert (fa' = fa) as -> by congruence.
  exists (PyTuple (before' ++ plug c' (stable_identity fb) :: after') :: r).
  split.
  - rewrite index_key_steps, Hb. simpl.
    rewrite signature_step_rewrites by by apply scan_position.
    assert (HsigB : map_only types_Dispatcher _compute_custom_key
              (before ++ plug c (TypesDispatcher ob ab) :: after) =
            Ok (before' ++ plug c' (stable_identity fb) :: after')).
    { apply map_only_plug; [done|].
      exists before', c', after', (stable_identity fb).
      repeat (split; [done|]). split; [|done].
      simpl. apply compute_custom_key_Ok. by exists fb. }
    rewrite HsigB. simpl. rewrite closure_step_cons by done. by rewrite Hr.
  - intros [= Heq]. apply app_inv_head in Heq. injection Heq as Heq.
    apply plug_inj in Heq. apply Hne. by injection Heq as -> ->.
Qed.


(** C7. Fail-loud: a signature holding, at any nesting depth, a
    descriptor tagged as a compiled function that exposes neither a
    direct [py_func] nor a [key()] giving one makes [_index_key] raise;
    no key is returned. *)
Theorem malformed_descriptor_raises self sig codegen :
  existsb holds_malformed sig = true ->
  raises (index_key self sig codegen).
Proof.
  intros Hsig. rewrite index_key_steps.
  destruct (super_index_key self sig codegen) as [k|e]; simpl;
    [|by exists e].
  rewrite signature_step_rewrites
    by exact (holds_malformed_scan (PyTuple sig) Hsig).
  destruct (holds_malformed_raises (PyTuple sig) Hsig) as [e He].
  simpl in He. unfold map_only.
  destruct (comprehension _ sig) as [vs|e']; simpl in *; [done|].
  by exists e'.
Qed.

(** The closure step when the scan of the captured values finds a
    reference: the last element [x] of the key goes, and two elements
    come in its place, [x[0]] and the digest. *)
Lemma closure_step_digest self cvars cvars' cvarbytes init x x0 :
  __closure__ (_py_func self) = Some cvars ->
  existsb _is_first_class_function cvars = true ->
  map_only dispatcher_Dispatcher _compute_custom_key cvars = Ok cvars' ->
  dumps (PyTuple cvars') = Ok cvarbytes ->
  getitem_0 x = Ok x0 ->
  closure_step dumps sha256_hexdigest self (init ++ [x]) =
    Ok (init ++ [x0; hasher sha256_hexdigest cvarbytes]).
Proof.
  intros Hcl Hscan Hmap Hdumps Hx0. unfold closure_step.
  rewrite Hcl, Hscan, Hmap. simpl. rewrite Hdumps. simpl.
  unfold getitem_last. rewrite last_snoc. simpl. rewrite Hx0. simpl.
  by rewrite removelast_last.
Qed.

(** C9. Asymmetric substitution domains.  In the signature a raw
    [dispatcher.Dispatcher] object sets off the scan and the replacement
    of the leading element of the key, and stands unsubstituted in the
    rewritten signature; in the closure a [types.Dispatcher] descriptor
    sets off the scan too, and stands unsubstituted in the captured
    values that are serialized. *)
Theorem asymmetric_substitution_domains
    self codegen k0 init x x0 cvarbytes
    oid a ty before c after before' c' after'
    oid2 a2 before2 c2 after2 before2' c2' after2' :
  let d := DispatcherObj oid a ty in
  let t := TypesDispatcher oid2 a2 in
  isinstance ty types_Dispatcher = true ->
  map_only types_Dispatcher _compute_custom_key before = Ok before' ->
  map_only_context types_Dispatcher _compute_custom_key c = Ok c' ->
  map_only types_Dispatcher _compute_custom_key after = Ok after' ->
  __closure__ (_py_func self) = Some (before2 ++ plug c2 t :: after2) ->
  map_only dispatcher_Dispatcher _compute_custom_key before2 = Ok before2' ->
  map_only_context dispatcher_Dispatcher _compute_custom_key c2 = Ok c2' ->
  map_only dispatcher_Dispatcher _compute_custom_key after2 = Ok after2' ->
  dumps (PyTuple (before2' ++ plug c2' t :: after2')) = Ok cvarbytes ->
  getitem_0 x = Ok x0 ->
  super_index_key self (before ++ plug c d :: after) codegen
    = Ok (k0 :: init ++ [x]) ->
  signature_step (before ++ plug c d :: after) (k0 :: init ++ [x]) =
    Ok (PyTuple (before' ++ plug c' d :: after') :: init ++ [x]) /\
  closure_step dumps sha256_hexdigest self (k0 :: init ++ [x]) =
    Ok (k0 :: init ++ [x0; hasher sha256_hexdigest cvarbytes]) /\
  index_key self (before ++ plug c d :: after) codegen =
    Ok (PyTuple (before' ++ plug c' d :: after')
          :: init ++ [x0; hasher sha256_hexdigest cvarbytes]).
Proof.
  intros d t Hty Hb Hc Ha Hcl Hb2 Hc2 Ha2 Hdumps Hx0 Hsuper.
  assert (Hsig : map_only types_Dispatcher _compute_custom_key
                   (before ++ plug c d :: after) =
                 Ok (before' ++ plug c' d :: after')).
  { apply map_only_plug; [done|]. by exists before', c', after', d. }
  assert (Hcv : map_only dispatcher_Dispatcher _compute_custom_key
                  (before2 ++ plug c2 t :: after2) =
                Ok (before2' ++ plug c2' t :: after2')).
  { apply map_only_plug; [done|]. by exists before2', c2', after2', t. }
  assert (Hd : _is_first_class_function d = true) by by destruct ty.
  assert (Hstep : forall k1 : pyobj,
    closure_step dumps sha256_hexdigest self (k1 :: init ++ [x]) =
      Ok (k1 :: init ++ [x0; hasher sha256_hexdigest cvarbytes])).
  { intros k1.
    eapply (closure_step_digest self _ _ cvarbytes (k1 :: init) x x0);
      [exact Hcl | by apply scan_position | exact Hcv | exact Hdumps
      | exact Hx0]. }
  split; [|split].
  - rewrite signature_step_rewrites by by apply scan_position.
    by rewrite Hsig.
  - apply Hstep.
  - rewrite index_key_steps, Hsuper. simpl.
    rewrite signature_step_rewrites by by apply scan_position.
    rewrite Hsig. simpl. apply Hstep.
Qed.



(** Whenever the closure step rewrites and returns, the key it returns
    is one element longer than the key it started from, and ends with
    the digest string: [key[:-1] + (key[-1][0], digest)] concatenates
    the two components instead of appending their pair. *)
Lemma closure_step_adds_an_element self cvars k k' :
  __closure__ (_py_func self) = Some cvars ->
  existsb _is_first_class_function cvars = true ->
  closure_step dumps sha256_hexdigest self k = Ok k' ->
  length k' = S (length k) /\
  exists x x0 cvarbytes,
    last k = Some x /\ getitem_0 x = Ok x0 /\
    k' = removelast k ++ [x0; PyStr (sha256_hexdigest cvarbytes)].
Proof.
  intros Hcl Hscan. unfold closure_step. rewrite Hcl, Hscan.
  intros H. apply bind_Ok in H as (cvars' & _ & H).
  apply bind_Ok in H as (cvarbytes & _ & H).
  apply bind_Ok in H as (x & Hx & H).
  apply bind_Ok in H as (x0 & Hx0 & [= <-]).
  unfold getitem_last in Hx. destruct (last k) as [y|] eqn:Hlast; [|done].
  injection Hx as ->. split; [|by exists x, x0, cvarbytes].
  apply last_Some in Hlast as [init ->].
  rewrite removelast_last, !length_app. simpl. lia.
Qed.

End properties.

(** ** The specification's scenarios on the concrete host *)

(** C3. Closure digest step, on the second scenario of the specification:
    signature [(int64, square)], closure [(square,)].  The reference in
    the closure is replaced by [("m", "square")], the contents are
    serialized and digested, and the closure hash of the baseline key is
    dropped; but the key that comes back has four elements where the
    baseline key has three, and its last element is the digest string,
    not the pair (code hash, digest). *)
Theorem closure_digest_flattens_the_key :
  let self := Example.closure [Example.jit 1 Example.square] in
  let sig := [Example.int64; Example.type_of 3 Example.square] in
  let digest :=
    Example.hexdigest
      (Example.dumps_bytes (PyTuple [PyTuple [PyStr "m"; PyStr "square"]])) in
  Example.base_index_key self sig tt =
    Ok [PyTuple sig; PyStr "x86_64";
        PyTuple [PyStr "h(code)"; PyStr "h(cvars)"]] /\
  Example.index_key self sig tt =
    Ok [PyTuple [Example.int64; PyTuple [PyStr "m"; PyStr "square"]];
        PyStr "x86_64"; PyStr "h(code)"; PyStr digest] /\
  Example.index_key self sig tt <>
    Ok [PyTuple [Example.int64; PyTuple [PyStr "m"; PyStr "square"]];
        PyStr "x86_64"; PyTuple [PyStr "h(code)"; PyStr digest]].
Proof. by repeat split. Qed.

(** The first scenario: closure [()]; the signature is rewritten and the
    trailing element of the baseline key is kept. *)
Lemma signature_rewrite_keeps_code_hash_witness :
  exists k,
    Example.index_key (Example.closure [])
      [Example.int64; Example.type_of 3 Example.square] tt = Ok k /\
    k !! 0 = Some (PyTuple [Example.int64; PyTuple [PyStr "m"; PyStr "square"]]) /\
    (forall i, 1 <= i ->
       k !! i = [PyTuple [Example.int64; Example.type_of 3 Example.square];
                 PyStr "x86_64";
                 PyTuple [PyStr "h(code)"; PyStr "h(cvars)"]] !! i) /\
    (2 <= 3 ->
     last k = Some (PyTuple [PyStr "h(code)"; PyStr "h(cvars)"])).
Proof.
  apply (signature_rewrite_keeps_code_hash
           Example.base_index_key Example.dumps Example.hexdigest).
  - reflexivity.
  - reflexivity.
  - reflexivity.
  - reflexivity.
  - apply map_only_rewritten. reflexivity.
Defined.

Lemma baseline_equivalence_witness :
  let self := Example.closure [Example.int64; PyList [PyStr "a"]] in
  let sig := [Example.int64; PyTuple [Example.int64; PyList [PyStr "b"]]] in
  Example.index_key self sig tt = Example.base_index_key self sig tt.
Proof.
  apply (baseline_equivalence
           Example.base_index_key Example.dumps Example.hexdigest);
    reflexivity.
Defined.

Lemma identity_substitution_determinism_witness :
  let self := Example.closure [Example.jit 5 Example.cube] in
  let c := InList [PyStr "x"] Here [Example.int64] in
  Example.index_key self
    ([Example.int64] ++ plug c (Example.type_of 1 Example.square) :: []) tt =
  Example.index_key self
    ([Example.int64] ++ plug c (Example.type_of 2 Example.square) :: []) tt.
Proof.
  intros self c.
  apply (identity_substitution_determinism
           Example.base_index_key Example.dumps Example.hexdigest
           self tt [Example.int64] c []
           1 (Example.type_attrs Example.square)
           2 (Example.type_attrs Example.square)
           Example.square Example.square
           (PyTuple ([Example.int64] ++ plug c (Example.type_of 1 Example.square) :: []))
           (PyTuple ([Example.int64] ++ plug c (Example.type_of 2 Example.square) :: []))
           [PyStr "x86_64"; PyTuple [PyStr "h(code)"; PyStr "h(cvars)"]]);
    reflexivity.
Defined.

Lemma discrimination_witness :
  let self := Example.closure [Example.jit 5 Example.cube] in
  let c := InList [PyStr "x"] Here [Example.int64] in
  exists keyB,
    Example.index_key self
      ([Example.int64] ++ plug c (Example.type_of 2 Example.cube) :: []) tt
      = Ok keyB /\
    [PyTuple [Example.int64;
              PyTuple [PyStr "x"; PyTuple [PyStr "m"; PyStr "square"];
                       Example.int64]];
     PyStr "x86_64"; PyStr "h(code)";
     PyStr (Example.hexdigest
              (Example.dumps_bytes
                 (PyTuple [PyTuple [PyStr "m"; PyStr "cube"]])))] <> keyB.
Proof.
  intros self c.
  eapply (discrimination
            Example.base_index_key Example.dumps Example.hexdigest
            self tt [Example.int64] c []
            1 (Example.type_attrs Example.square)
            2 (Example.type_attrs Example.cube)
            Example.square Example.cube).
  - reflexivity.
  - reflexivity.
  - simpl. congruence.
  - reflexivity.
  - reflexivity.
  - discriminate.
  - reflexivity.
Defined.


Lemma malformed_descriptor_raises_witness :
  raises (Example.index_key Example.no_closure
            [Example.int64; PyList [Example.broken]] tt).
Proof.
  apply (malformed_descriptor_raises
           Example.base_index_key Example.dumps Example.hexdigest).
  reflexivity.
Defined.

Lemma asymmetric_substitution_domains_witness :
  let d := Example.jit 1 Example.square in
  let t := Example.type_of 4 Example.cube in
  let sig := [Example.int64] ++ plug (InTuple [] Here []) d :: [] in
  let self := Example.closure ([] ++ plug Here t :: [Example.jit 6 Example.cube]) in
  let digest :=
    hasher Example.hexdigest
      (Example.dumps_bytes (PyTuple [t; PyTuple [PyStr "m"; PyStr "cube"]])) in
  signature_step sig
    ([PyTuple sig; PyStr "x86_64"] ++ [PyTuple [PyStr "h(code)"; PyStr "h(cvars)"]]) =
    Ok ([PyTuple [Example.int64; PyTuple [d]]; PyStr "x86_64"] ++
        [PyTuple [PyStr "h(code)"; PyStr "h(cvars)"]]) /\
  closure_step Example.dumps Example.hexdigest self
    ([PyTuple sig; PyStr "x86_64"] ++ [PyTuple [PyStr "h(code)"; PyStr "h(cvars)"]]) =
    Ok ([PyTuple sig; PyStr "x86_64"] ++ [PyStr "h(code)"; digest]) /\
  Example.index_key self sig tt =
    Ok ([PyTuple [Example.int64; PyTuple [d]]; PyStr "x86_64"] ++
        [PyStr "h(code)"; digest]).
Proof.
  intros d t sig self digest.
  apply (asymmetric_substitution_domains
           Example.base_index_key Example.dumps Example.hexdigest
           self tt (PyTuple sig) [PyStr "x86_64"]
           (PyTuple [PyStr "h(code)"; PyStr "h(cvars)"]) (PyStr "h(code)")
           (Example.dumps_bytes (PyTuple [t; PyTuple [PyStr "m"; PyStr "cube"]]))
           1 {| py_func := Some Example.square; key := NoKey |}
           (Example.type_of 2 Example.square)
           [Example.int64] (InTuple [] Here []) []
           [Example.int64] (InTuple [] Here []) []
           4 (Example.type_attrs Example.cube)
           [] Here [Example.jit 6 Example.cube]
           [] Here [PyTuple [PyStr "m"; PyStr "cube"]]);
    reflexivity.
Defined.


(** ** The code over the store changes no object *)

Lemma extends_ret {A} (a : A) : Heap.extends (Heap.ret a).
Proof. by intros st. Qed.

Lemma extends_raise {A} e : Heap.extends (@Heap.raise A e).
Proof. by intros st. Qed.

Lemma extends_bind {A B} (m : Heap.M A) (k : A -> Heap.M B) :
  Heap.extends m -> (forall a, Heap.extends (k a)) ->
  Heap.extends (Heap.bind m k).
Proof.
  intros Hm Hk st. unfold Heap.bind. specialize (Hm st).
  destruct (m st) as [[a|e] st']; simpl in *; [|done].
  etrans; [exact Hm | apply Hk].
Qed.

Lemma extends_load a : Heap.extends (Heap.load a).
Proof. intros st. unfold Heap.load. by destruct (st !! a). Qed.

Lemma extends_alloc o : Heap.extends (Heap.alloc o).
Proof. intros st. simpl. by apply prefix_app_r. Qed.

Create HintDb extends discriminated.
#[local] Hint Resolve extends_ret extends_raise extends_load extends_alloc
  : extends.

Ltac extends_step :=
  first [ apply extends_bind; [|intros ?]
        | progress eauto with extends ].

Lemma extends_iter a : Heap.extends (Heap.iter a).
Proof.
  unfold Heap.iter. extends_step; [extends_step|].
  match goal with o : Heap.object |- _ => destruct o end; extends_step.
Qed.

Lemma extends_any f items :
  (forall i, Heap.extends (f i)) -> Heap.extends (Heap.any f items).
Proof.
  intros Hf. induction items as [|i rest IH]; simpl; [extends_step|].
  apply extends_bind; [done|]. intros [|]; [extends_step | done].
Qed.

Lemma extends_comprehension {A B} (body : A -> Heap.M B) iterable :
  (forall i, Heap.extends (body i)) ->
  Heap.extends (Heap.comprehension body iterable).
Proof.
  intros Hf. induction iterable as [|i rest IH]; simpl; [extends_step|].
  apply extends_bind; [done|]. intros v.
  apply extends_bind; [done|]. intros vs. extends_step.
Qed.

Lemma extends_is_first_class_function depth obj :
  Heap.extends (Heap._is_first_class_function depth obj).
Proof.
  revert obj. induction depth as [|depth IH]; intros obj; simpl;
    [extends_step|].
  apply extends_bind; [extends_step|]. intros [items|items|s|a|a ty|];
    try extends_step; try done.
  all: by apply extends_any.
Qed.

Lemma extends_compute_custom_key typ :
  Heap.extends (Heap._compute_custom_key typ).
Proof.
  unfold Heap._compute_custom_key.
  apply extends_bind; [extends_step|]. intros o.
  apply extends_bind.
  { destruct (py_func _); [extends_step|].
    destruct (key _) as [| |[f|]]; extends_step. }
  intros f. repeat extends_step.
Qed.

Lemma extends_map_only depth types func iterable :
  (forall i, Heap.extends (func i)) ->
  Heap.extends (Heap.map_only depth types func iterable).
Proof.
  intros Hf. revert iterable.
  induction depth as [|depth IH]; intros iterable; simpl; [extends_step|].
  apply extends_bind; [apply extends_iter|]. intros items.
  apply extends_bind; [|intros vs; extends_step].
  apply extends_comprehension. intros i.
  apply extends_bind; [extends_step|]. intros o.
  destruct (Heap.isinstance o types); [apply Hf|].
  destruct o; simpl; first [apply IH | apply extends_ret].
Qed.

Lemma extends_getitem_last k : Heap.extends (Heap.getitem_last k).
Proof. unfold Heap.getitem_last. destruct (last k); extends_step. Qed.

Lemma extends_getitem_0 x : Heap.extends (Heap.getitem_0 x).
Proof.
  unfold Heap.getitem_0. apply extends_bind; [extends_step|].
  intros [[|y items]|[|y items]|[|ch s]|a|a ty|]; extends_step.
Qed.

Lemma extends_index_key super_index_key dumps sha256_hexdigest depth
    self sig codegen :
  (forall self sig codegen, Heap.extends (super_index_key self sig codegen)) ->
  (forall cvars, Heap.extends (dumps cvars)) ->
  Heap.extends
    (Heap._index_key super_index_key dumps sha256_hexdigest depth
       self sig codegen).
Proof.
  intros Hsuper Hdumps. unfold Heap._index_key.
  apply extends_bind; [done|]. intros k.
  apply extends_bind.
  { apply extends_bind; [apply extends_iter|]. intros items.
    apply extends_bind;
      [apply extends_any, extends_is_first_class_function|]. intros b.
    destruct b; [|extends_step].
    apply extends_bind;
      [apply extends_map_only, extends_compute_custom_key|]. intros sig'.
    apply extends_bind; [apply extends_iter|]. intros ks. extends_step. }
  intros k'. destruct (Heap.h__closure__ self) as [cells|]; [|extends_step].
  apply extends_bind; [extends_step|]. intros cvars.
  apply extends_bind;
    [apply extends_any, extends_is_first_class_function|].
  intros [|]; [|extends_step].
  apply extends_bind;
    [apply extends_map_only, extends_compute_custom_key|]. intros cvars'.
  apply extends_bind; [done|]. intros cvarbytes.
  apply extends_bind; [apply extends_iter|]. intros ks.
  apply extends_bind; [apply extends_getitem_last|]. intros x.
  apply extends_bind; [apply extends_getitem_0|]. intros x0.
  apply extends_bind; [extends_step|]. intros h. extends_step.
Qed.

(** ** The code over the store computes the same key *)

Lemma Forall2_Forall_r {A B} (P Q : A -> B -> Prop) xs ys :
  Forall (fun y => forall x, P x y -> Q x y) ys ->
  Forall2 P xs ys -> Forall2 Q xs ys.
Proof.
  intros H. revert xs. induction H as [|y ys Hy _ IH]; intros xs;
    inversion 1; subst; constructor; auto.
Qed.

Lemma repr_mono st st' a v :
  st `prefix_of` st' -> Heap.repr st a v -> Heap.repr st' a v.
Proof.
  intros Hst. revert a.
  induction v as [items IH|items IH|s|oid attr|oid attr ty IH|oid]
    using pyobj_nested_ind; intros a; inversion 1; subst.
  - eapply Heap.repr_tuple; [by eapply prefix_lookup_Some|].
    by eapply Forall2_Forall_r.
  - eapply Heap.repr_list; [by eapply prefix_lookup_Some|].
    by eapply Forall2_Forall_r.
  - constructor. by eapply prefix_lookup_Some.
  - constructor. by eapply prefix_lookup_Some.
  - econstructor; [by eapply prefix_lookup_Some | by apply IH].
  - constructor. by eapply prefix_lookup_Some.
Qed.

Lemma repr_items_mono st st' items vs :
  st `prefix_of` st' ->
  Forall2 (Heap.repr st) items vs -> Forall2 (Heap.repr st') items vs.
Proof.
  intros Hst H. eapply Forall2_impl; [exact H|]. intros a v. by apply repr_mono.
Qed.

(** The object behind a value: same class, same attributes. *)
Lemma repr_object st a v :
  Heap.repr st a v ->
  exists o, st !! a = Some o /\ Heap.attrs_of o = attrs_of v /\
            forall c, Heap.isinstance o c = isinstance v c.
Proof.
  inversion 1; subst; eexists; (split; [done|]); split; try done.
  all: by intros [].
Qed.

Lemma height_items items depth :
  list_max (map height items) <= depth ->
  Forall (fun v => height v <= depth) items.
Proof. rewrite list_max_le, Forall_map. done. Qed.

Lemma height_pos v : 1 <= height v.
Proof. destruct v; simpl; lia. Qed.

Lemma sim_any (f : nat -> Heap.M bool) (g : pyobj -> bool) items vs st :
  Forall2 (fun i v => f i st = (Ok (g v), st)) items vs ->
  Heap.any f items st = (Ok (existsb g vs), st).
Proof.
  induction 1 as [|i v items vs Hi _ IH]; simpl; [done|].
  unfold Heap.bind. rewrite Hi. by destruct (g v).
Qed.

(** The scan reads the store, leaves it as it is, and answers as the scan
    of the value does. *)
Lemma sim_is_first_class_function st depth a v :
  Heap.repr st a v -> height v <= depth ->
  Heap._is_first_class_function depth a st =
    (Ok (_is_first_class_function v), st).
Proof.
  revert a depth.
  induction v as [items IH|items IH|s|oid attr|oid attr ty IH|oid]
    using pyobj_nested_ind; intros a depth Hr Hh;
    (match type of Hh with height ?v <= _ => pose proof (height_pos v) end);
    (destruct depth as [|depth]; [lia|]);
    inversion Hr; subst; simpl; unfold Heap.bind, Heap.load;
    match goal with H : st !! _ = Some _ |- _ => rewrite H end; try done.
  - apply sim_any. apply le_S_n, height_items in Hh.
    eapply Forall2_Forall_r; [|eassumption]. simpl.
    rewrite Forall_forall in IH, Hh |- *. intros v Hv i Hi.
    by apply IH; [| |apply Hh].
  - apply sim_any. apply le_S_n, height_items in Hh.
    eapply Forall2_Forall_r; [|eassumption]. simpl.
    rewrite Forall_forall in IH, Hh |- *. intros v Hv i Hi.
    by apply IH; [| |apply Hh].
  - apply IH; [done|]. simpl in Hh. lia.
Qed.

Lemma sim_scan_items st depth items vs :
  Forall2 (Heap.repr st) items vs ->
  list_max (map height vs) <= depth ->
  Heap.any (Heap._is_first_class_function depth) items st =
    (Ok (existsb _is_first_class_function vs), st).
Proof.
  intros Hr Hh. apply sim_any. apply height_items in Hh.
  eapply Forall2_Forall_r; [|exact Hr]. simpl.
  rewrite Forall_forall in Hh |- *. intros v Hv i Hi.
  by apply sim_is_first_class_function; [|apply Hh].
Qed.

Lemma outcome_bind {A A' B B'}
    (relA : list Heap.object -> A -> A' -> Prop)
    (relB : list Heap.object -> B -> B' -> Prop)
    (m : Heap.M A) (k : A -> Heap.M B) (R : result A') (K : A' -> result B') st :
  Heap.outcome relA st (m st) R ->
  (forall a v st1, st `prefix_of` st1 -> relA st1 a v ->
                   Heap.outcome relB st1 (k a st1) (K v)) ->
  Heap.outcome relB st (Heap.bind m k st) (bind R K).
Proof.
  unfold Heap.outcome, Heap.bind. intros [Hst Hm] Hk.
  destruct (m st) as [[a|e] st1], R as [v|e']; simpl in *; try done.
  destruct (Hk a v st1 Hst Hm) as [Hst1 Hk1]. split; [|done].
  by etrans.
Qed.

Lemma outcome_alloc st o v (rel : list Heap.object -> nat -> pyobj -> Prop) :
  rel (st ++ [o]) (length st) v ->
  Heap.outcome rel st (Heap.alloc o st) (Ok v).
Proof. intros H. split; simpl; [by apply prefix_app_r | done]. Qed.

Lemma lookup_alloc (st : list Heap.object) o : (st ++ [o]) !! length st = Some o.
Proof. by apply list_lookup_middle. Qed.

Lemma sim_compute_custom_key st a v :
  Heap.repr st a v ->
  Heap.outcome Heap.repr st
    (Heap._compute_custom_key a st) (_compute_custom_key v).
Proof.
  intros Hr. apply repr_object in Hr as (o & Ho & Hattrs & _).
  unfold Heap._compute_custom_key, _compute_custom_key, Heap.bind at 1,
    Heap.load.
  rewrite Ho, Hattrs.
  destruct (py_func (attrs_of v)) as [f|];
    [|destruct (key (attrs_of v)) as [| |[f|]]]; try done.
  all: split; simpl; [by do 3 apply prefix_app_r|].
  all: eapply Heap.repr_tuple; [apply lookup_alloc|].
  all: repeat constructor.
  all: try (eapply prefix_lookup_Some; [apply lookup_alloc|]).
  all: first [by apply prefix_app_r | by do 2 apply prefix_app_r].
Qed.

Lemma sim_getitem_0 st x v :
  Heap.repr st x v ->
  Heap.outcome Heap.repr st (Heap.getitem_0 x st) (getitem_0 v).
Proof.
  intros Hr. unfold Heap.getitem_0, Heap.bind, Heap.load.
  inversion Hr as [a items vs Ho Hitems|a items vs Ho Hitems|a s Ho|a attr Ho
                  |a attr ty tyv Ho Hty|a Ho]; subst; rewrite Ho; simpl.
  1, 2: destruct Hitems as [|i w items vs Hi Hitems]; by split.
  2, 3, 4: by split.
  destruct s as [|ch s]; [by split|]. split; simpl; [by apply prefix_app_r|].
  constructor. apply lookup_alloc.
Qed.

Lemma sim_iter st a v :
  Heap.repr st a v -> isinstance v tuple_list = true ->
  exists items vs,
    Heap.iter a st = (Ok items, st) /\ Forall2 (Heap.repr st) items vs /\
    (v = PyTuple vs \/ v = PyList vs).
Proof.
  intros Hr Hv. unfold Heap.iter, Heap.bind, Heap.load.
  inversion Hr as [a' items vs Ho Hitems|a' items vs Ho Hitems| | | |]; subst;
    try done; rewrite Ho; exists items, vs; auto.
Qed.

Lemma sim_comprehension (body : nat -> Heap.M nat) (pbody : pyobj -> result pyobj)
    (P : pyobj -> Prop) items vs st :
  Forall2 (Heap.repr st) items vs ->
  Forall P vs ->
  (forall st1 i v, st `prefix_of` st1 -> Heap.repr st1 i v -> P v ->
     Heap.outcome Heap.repr st1 (body i st1) (pbody v)) ->
  Heap.outcome (fun st => Forall2 (Heap.repr st)) st
    (Heap.comprehension body items st) (comprehension pbody vs).
Proof.
  revert items st.
  induction vs as [|v vs IH]; intros items st Hr HP Hbody;
    inversion Hr as [|i ? items' ? Hi Hitems]; subst; simpl.
  { split; [done | constructor]. }
  inversion HP as [|? ? Hv Hvs]; subst.
  eapply (outcome_bind Heap.repr); [by apply Hbody|].
  intros a w st1 Hst1 Hw.
  eapply (outcome_bind (fun st => Forall2 (Heap.repr st))).
  { apply IH; [by eapply repr_items_mono | done |].
    intros st2 i' v' Hst2. apply Hbody. by etrans. }
  intros ws wvs st2 Hst2 Hws. split; [done|]. simpl.
  constructor; [by eapply repr_mono | done].
Qed.

Lemma map_only_item_cases types func v :
  map_only_item types func v =
    if isinstance v types then func v
    else match v with
         | PyTuple items | PyList items =>
             vs <- map_only types func items ;; Ok (PyTuple vs)
         | _ => Ok v
         end.
Proof. by destruct v. Qed.

(** [map_only] over the store builds the tuple that [map_only] over the
    values returns, or raises the same exception. *)
Lemma sim_map_only types depth st a v :
  types <> tuple_list ->
  Heap.repr st a v -> isinstance v tuple_list = true ->
  height v <= depth ->
  Heap.outcome Heap.repr st
    (Heap.map_only depth types Heap._compute_custom_key a st)
    (map_only_item types _compute_custom_key v).
Proof.
  intros Hty. revert st a v.
  induction depth as [|depth IH]; intros st a v Hr Hv Hh.
  { pose proof (height_pos v). lia. }
  destruct (sim_iter _ _ _ Hr Hv) as (items & vs & Hiter & Hitems & Hcases).
  assert (Hvs : Forall (fun w => height w <= depth) vs).
  { destruct Hcases as [-> | ->]; simpl in Hh; apply height_items; lia. }
  assert (Hpure : map_only_item types _compute_custom_key v =
                  (ws <- comprehension
                           (map_only_item types _compute_custom_key) vs ;;
                   Ok (PyTuple ws))).
  { destruct Hcases as [-> | ->]; by destruct types. }
  rewrite Hpure. simpl. unfold Heap.bind at 1. rewrite Hiter.
  eapply (outcome_bind (fun st => Forall2 (Heap.repr st))).
  - apply (sim_comprehension _ _ _ _ _ _ Hitems Hvs).
    intros st1 i w Hst1 Hw Hhw.
    destruct (repr_object _ _ _ Hw) as (o & Ho & _ & Hinst).
    unfold Heap.bind, Heap.load. rewrite Ho, !Hinst.
    rewrite map_only_item_cases.
    destruct (isinstance w types) eqn:Hwt;
      [by apply sim_compute_custom_key|].
    pose proof (Hinst tuple_list) as Hc.
    destruct (isinstance w tuple_list) eqn:Hwc; simpl in Hc; rewrite Hc.
    + assert (Hcases' : map_only_item types _compute_custom_key w =
                match w with
                | PyTuple items0 | PyList items0 =>
                    vs0 <- map_only types _compute_custom_key items0;;
                    Ok (PyTuple vs0)
                | _ => Ok w
                end) by (by rewrite map_only_item_cases, Hwt).
      rewrite <- Hcases'. by apply IH.
    + destruct w; try done; by split.
  - intros ws wvs st1 Hst1 Hws. apply outcome_alloc.
    eapply Heap.repr_tuple; [apply lookup_alloc|].
    eapply repr_items_mono; [|exact Hws]. by apply prefix_app_r.
Qed.

Lemma sim_map_only_items types depth st a vs :
  types <> tuple_list ->
  Heap.repr st a (PyTuple vs) ->
  height (PyTuple vs) <= depth ->
  Heap.outcome (fun st a ws => Heap.repr st a (PyTuple ws)) st
    (Heap.map_only depth types Heap._compute_custom_key a st)
    (map_only types _compute_custom_key vs).
Proof.
  intros Hty Hr Hh.
  destruct (sim_map_only types depth st a _ Hty Hr eq_refl Hh) as [Hst Hres].
  split; [done|].
  rewrite (proj1 (map_only_item_container _ _ _ Hty)) in Hres.
  destruct (Heap.map_only _ _ _ _ _) as [[a'|e] st']; simpl in *;
    by destruct (map_only _ _ vs).
Qed.

Lemma sim_getitem_last st ks K :
  Forall2 (Heap.repr st) ks K ->
  Heap.outcome Heap.repr st (Heap.getitem_last ks st) (getitem_last K).
Proof.
  intros H. unfold Heap.getitem_last, getitem_last.
  induction H as [|k v ks K Hk H IH]; [by split|].
  destruct H as [|k' v' ks K Hk' H]; [by split|].
  by rewrite !last_cons_cons.
Qed.

Lemma Forall2_removelast {A B} (P : A -> B -> Prop) xs ys :
  Forall2 P xs ys -> Forall2 P (removelast xs) (removelast ys).
Proof.
  induction 1 as [|x y xs ys Hxy H IH]; [constructor|].
  destruct H as [|x' y' xs ys Hxy' H]; simpl in *; by constructor.
Qed.

Section simulation.
Context {Codegen : Type}.
Variable super_index_key : cache -> list pyobj -> Codegen -> result (list pyobj).
Variable dumps : pyobj -> result (list byte).
Variable hdumps : nat -> Heap.M (list byte).
Variable sha256_hexdigest : list byte -> string.
Variable depth : nat.

(** What is asked of [dumps] over the store: it changes no object, and
    its bytes are those of the value it is given. *)
Hypothesis dumps_sim : forall st a v,
  Heap.repr st a v ->
  Heap.outcome (fun _ (b b' : list byte) => b = b') st (hdumps a st) (dumps v).

Lemma sim_signature_step st sig sigv ka K :
  Heap.repr st sig (PyTuple sigv) ->
  height (PyTuple sigv) <= depth ->
  Heap.repr st ka (PyTuple K) ->
  Heap.outcome (fun st a ws => Heap.repr st a (PyTuple ws)) st
    (Heap.signature_step depth sig ka st) (signature_step sigv K).
Proof.
  intros Hsig Hh Hka. unfold Heap.signature_step, signature_step.
  destruct (sim_iter _ _ _ Hsig eq_refl)
    as (items & vs & Hiter & Hitems & [[= <-]|[=]]).
  unfold Heap.bind at 1. rewrite Hiter.
  unfold Heap.bind at 1.
  rewrite (sim_scan_items _ depth _ _ Hitems) by (simpl in Hh; lia).
  destruct (existsb _ sigv); [|split; [reflexivity | exact Hka]].
  eapply (outcome_bind (fun st a ws => Heap.repr st a (PyTuple ws)));
    [by apply sim_map_only_items|].
  intros a' sig' st1 Hst1 Hsig'.
  destruct (sim_iter st1 ka (PyTuple K) (repr_mono _ _ _ _ Hst1 Hka) eq_refl)
    as (ks & K' & Hiterk & Hks & [[= <-]|[=]]).
  unfold Heap.bind. rewrite Hiterk. apply outcome_alloc.
  eapply Heap.repr_tuple; [apply lookup_alloc|].
  eapply (repr_items_mono st1); [by apply prefix_app_r|].
  constructor; [done | by apply Forall2_drop].
Qed.

Lemma sim_closure_step st hself self ka K :
  Heap.repr_closure st hself self ->
  height (PyTuple (closure_cells self)) <= depth ->
  Heap.repr st ka (PyTuple K) ->
  Heap.outcome (fun st a ws => Heap.repr st a (PyTuple ws)) st
    (Heap.closure_step hdumps sha256_hexdigest depth hself ka st)
    (closure_step dumps sha256_hexdigest self K).
Proof using dumps_sim.
  unfold Heap.repr_closure, closure_cells, Heap.closure_step, closure_step.
  intros Hcl Hh Hka.
  destruct (Heap.h__closure__ hself) as [cells|],
    (__closure__ (_py_func self)) as [cvars|]; try done.
  unfold Heap.bind at 1. simpl.
  assert (Hst0 : st `prefix_of` st ++ [Heap.OTuple cells])
    by by apply prefix_app_r.
  assert (Hcells : Forall2 (Heap.repr (st ++ [Heap.OTuple cells])) cells cvars)
    by by eapply repr_items_mono.
  unfold Heap.bind at 1.
  rewrite (sim_scan_items _ depth _ _ Hcells) by (simpl in Hh; lia).
  destruct (existsb _ cvars);
    [|split; simpl; [done | by eapply repr_mono]].
  assert (Hgrow : forall run R,
    Heap.outcome (fun st a ws => Heap.repr st a (PyTuple ws))
      (st ++ [Heap.OTuple cells]) run R ->
    Heap.outcome (fun st a ws => Heap.repr st a (PyTuple ws)) st run R).
  { intros run R [Hpre Hres]. split; [by etrans | done]. }
  apply Hgrow.
  eapply (outcome_bind (fun st a ws => Heap.repr st a (PyTuple ws))).
  { apply sim_map_only_items; [done| |done].
    eapply Heap.repr_tuple; [apply lookup_alloc | done]. }
  intros a' cvars' st1 Hst1 Hcvars'.
  eapply (outcome_bind (fun _ (b b' : list byte) => b = b'));
    [by apply dumps_sim|].
  intros cvarbytes ? st2 Hst2 <-.
  assert (Hka2 : Heap.repr st2 ka (PyTuple K)).
  { eapply repr_mono; [|exact Hka]. etrans; [exact Hst0|]. by etrans. }
  destruct (sim_iter st2 ka (PyTuple K) Hka2 eq_refl)
    as (ks & K' & Hiterk & Hks & [[= <-]|[=]]).
  unfold Heap.bind at 1. rewrite Hiterk.
  eapply (outcome_bind Heap.repr); [by apply sim_getitem_last|].
  intros x xv st3 Hst3 Hx.
  eapply (outcome_bind Heap.repr); [by apply sim_getitem_0|].
  intros x0 x0v st4 Hst4 Hx0.
  unfold Heap.bind, Heap.alloc. split; simpl.
  { by do 2 apply prefix_app_r. }
  eapply Heap.repr_tuple; [apply lookup_alloc|].
  apply Forall2_app.
  - apply Forall2_removelast. eapply repr_items_mono; [|exact Hks].
    etrans; [exact Hst3|]. etrans; [exact Hst4|]. by do 2 apply prefix_app_r.
  - constructor; [|constructor; [|constructor]].
    + eapply repr_mono; [|exact Hx0]. by do 2 apply prefix_app_r.
    + constructor. eapply prefix_lookup_Some; [apply lookup_alloc|].
      by apply prefix_app_r.
Qed.

Variable hsuper_index_key : Heap.hcache -> nat -> nat -> Heap.M nat.
Variable codegen : Codegen.
Variable hcodegen : nat.

(** What is asked of the base class over the store: it changes no object,
    and its key is the key for the values it is given. *)
Hypothesis super_sim : forall st hself self sig sigv,
  Heap.repr st sig (PyTuple sigv) ->
  Heap.repr_closure st hself self ->
  Heap.outcome (fun st a ws => Heap.repr st a (PyTuple ws)) st
    (hsuper_index_key hself sig hcodegen st)
    (super_index_key self sigv codegen).

Lemma repr_closure_mono st st' hself self :
  st `prefix_of` st' ->
  Heap.repr_closure st hself self -> Heap.repr_closure st' hself self.
Proof.
  unfold Heap.repr_closure. intros Hst.
  destruct (Heap.h__closure__ hself), (__closure__ (_py_func self)); try done.
  by apply repr_items_mono.
Qed.

(** The code over the store refines the code over the values: run from a
    store that holds the signature and the captured values, it changes no
    object and returns the address of the key computed from the values,
    or raises the exception raised there. *)
Lemma sim_index_key st hself self sig sigv :
  Heap.repr st sig (PyTuple sigv) ->
  Heap.repr_closure st hself self ->
  height (PyTuple sigv) <= depth ->
  height (PyTuple (closure_cells self)) <= depth ->
  Heap.outcome (fun st a ws => Heap.repr st a (PyTuple ws)) st
    (Heap._index_key hsuper_index_key hdumps sha256_hexdigest depth
       hself sig hcodegen st)
    (_index_key super_index_key dumps sha256_hexdigest self sigv codegen).
Proof using dumps_sim super_sim.
  intros Hsig Hcl Hhs Hhc. rewrite index_key_steps.
  change (Heap._index_key hsuper_index_key hdumps sha256_hexdigest depth
            hself sig hcodegen)
    with (Heap.bind (hsuper_index_key hself sig hcodegen) (fun k =>
          Heap.bind (Heap.signature_step depth sig k) (fun k =>
          Heap.closure_step hdumps sha256_hexdigest depth hself k))).
  eapply (outcome_bind (fun st a ws => Heap.repr st a (PyTuple ws)));
    [by apply super_sim|].
  intros ka K st1 Hst1 Hka.
  eapply (outcome_bind (fun st a ws => Heap.repr st a (PyTuple ws))).
  { apply sim_signature_step; [by eapply repr_mono | done | done]. }
  intros ka' K' st2 Hst2 Hka'.
  apply sim_closure_step; [|done|done].
  eapply repr_closure_mono; [|exact Hcl]. by etrans.
Qed.

(** C8. Purity and determinism.  [_index_key] changes none of the objects
    it is given: every object of the store it runs from is the same
    afterwards, the signature, the code generator handle and the contents
    of the closure cells among them.  And two invocations on the same
    inputs, the second run from the store the first has left, end alike:
    they return keys of equal value, or raise the same exception.  The
    collaborators are taken to change no object and to answer by the value
    of what they are given. *)
Theorem purity_and_determinism st hself self sig sigv :
  let run1 :=
    Heap._index_key hsuper_index_key hdumps sha256_hexdigest depth
      hself sig hcodegen st in
  let run2 :=
    Heap._index_key hsuper_index_key hdumps sha256_hexdigest depth
      hself sig hcodegen (snd run1) in
  Heap.repr st sig (PyTuple sigv) ->
  Heap.repr_closure st hself self ->
  height (PyTuple sigv) <= depth ->
  height (PyTuple (closure_cells self)) <= depth ->
  (forall (a : nat) (o : Heap.object), st !! a = Some o ->
     snd run1 !! a = Some o /\ snd run2 !! a = Some o) /\
  match fst run1, fst run2 with
  | Ok k1, Ok k2 =>
      exists key1 key2,
        Heap.repr (snd run1) k1 key1 /\ Heap.repr (snd run2) k2 key2 /\
        key1 = key2
  | Raise e1, Raise e2 => e1 = e2
  | _, _ => False
  end.
Proof using dumps_sim super_sim.
  intros run1 run2 Hsig Hcl Hhs Hhc.
  destruct (sim_index_key st hself self sig sigv Hsig Hcl Hhs Hhc)
    as [Hst1 Hres1]. fold run1 in Hst1, Hres1.
  assert (Hsig1 : Heap.repr (snd run1) sig (PyTuple sigv))
    by by eapply repr_mono.
  assert (Hcl1 : Heap.repr_closure (snd run1) hself self)
    by by eapply repr_closure_mono.
  destruct (sim_index_key (snd run1) hself self sig sigv Hsig1 Hcl1 Hhs Hhc)
    as [Hst2 Hres2]. fold run2 in Hst2, Hres2.
  split.
  - intros a o Ho. split; [by eapply prefix_lookup_Some|].
    eapply prefix_lookup_Some; [exact Ho | by etrans].
  - destruct (fst run1) as [k1|e1], (fst run2) as [k2|e2],
      (_index_key super_index_key dumps sha256_hexdigest self sigv codegen)
      as [key|e]; try done; [|congruence].
    by exists (PyTuple key), (PyTuple key).
Qed.

End simulation.

(** ** The store scenario *)

Lemma example_super_sim st hself self sig sigv :
  Heap.repr st sig (PyTuple sigv) ->
  Heap.repr_closure st hself self ->
  Heap.outcome (fun st a ws => Heap.repr st a (PyTuple ws)) st
    (HeapExample.base_index_key hself sig 4 st)
    (Example.base_index_key self sigv tt).
Proof.
  intros Hsig _. split; simpl; [by do 5 apply prefix_app_r|].
  eapply Heap.repr_tuple; [apply lookup_alloc|].
  constructor; [|constructor; [|constructor; [|constructor]]].
  - eapply repr_mono; [|exact Hsig]. by do 5 apply prefix_app_r.
  - constructor. eapply prefix_lookup_Some; [apply lookup_alloc|].
    by do 4 apply prefix_app_r.
  - eapply Heap.repr_tuple.
    + eapply prefix_lookup_Some; [apply lookup_alloc|]. by apply prefix_app_r.
    + repeat constructor.
      all: eapply prefix_lookup_Some; [apply lookup_alloc|].
      all: first [by do 3 apply prefix_app_r | by do 2 apply prefix_app_r].
Qed.

Lemma example_dumps_sim st a v :
  Heap.repr st a v ->
  Heap.outcome (fun _ (b b' : list byte) => b = b') st
    (HeapExample.dumps a st) (HeapExample.dumps_value v).
Proof. by split. Qed.

(** The store scenario run twice: the five objects are as they were, and
    both runs return the key
    [((int64, ("m", "square")), "x86_64", "h(code)", digest)]. *)
Lemma purity_and_determinism_witness :
  let run1 := HeapExample.index_key HeapExample.objects in
  let run2 := HeapExample.index_key (snd run1) in
  (forall (a : nat) (o : Heap.object), HeapExample.objects !! a = Some o ->
     snd run1 !! a = Some o /\ snd run2 !! a = Some o) /\
  match fst run1, fst run2 with
  | Ok k1, Ok k2 =>
      exists key1 key2,
        Heap.repr (snd run1) k1 key1 /\ Heap.repr (snd run2) k2 key2 /\
        key1 = key2
  | Raise e1, Raise e2 => e1 = e2
  | _, _ => False
  end.
Proof.
  apply (purity_and_determinism
           Example.base_index_key HeapExample.dumps_value HeapExample.dumps
           Example.hexdigest 8 example_dumps_sim
           HeapExample.base_index_key tt 4 example_super_sim
           HeapExample.objects HeapExample.self HeapExample.self_value
           3 HeapExample.sig_value).
  - eapply Heap.repr_tuple; [reflexivity|].
    repeat first [constructor | reflexivity].
  - simpl. repeat first [econstructor | reflexivity].
  - simpl. lia.
  - simpl. lia.
Defined.

Example store_scenario_key :
  exists k st',
    HeapExample.index_key HeapExample.objects = (Ok k, st') /\
    Heap.repr st' k
      (PyTuple
         [PyTuple [PyOther 0; PyTuple [PyStr "m"; PyStr "square"]];
          PyStr "x86_64"; PyStr "h(code)";
          PyStr (Example.hexdigest [x2e])]).
Proof.
  eexists _, _. split; [reflexivity|].
  repeat first [reflexivity | econstructor].
Qed.

(** ** More on [map_only] *)

Lemma bind_Raise {A B} (m : result A) (k : A -> result B) e :
  bind m k = Raise e <-> m = Raise e \/ exists a, m = Ok a /\ k a = Raise e.
Proof.
  destruct m as [a|e']; simpl; split.
  - right. by exists a.
  - by intros [[=] | (a' & [= <-] & Hk)].
  - intros [= ->]. by left.
  - by intros [[= ->] | (a' & [=] & _)].
Qed.

Lemma comprehension_map {A B} (body : A -> result B) (g : A -> B) xs :
  Forall (fun x => body x = Ok (g x)) xs ->
  comprehension body xs = Ok (map g xs).
Proof. induction 1 as [|x xs Hx _ IH]; simpl; [done|]. by rewrite Hx, IH. Qed.

Lemma comprehension_returns {A B} (body : A -> result B) xs :
  Forall (fun x => exists y, body x = Ok y) xs ->
  exists ys, comprehension body xs = Ok ys.
Proof.
  induction 1 as [|x xs [y Hy] _ [ys IH]]; simpl; [by eexists|].
  rewrite Hy, IH. by eexists.
Qed.

Lemma comprehension_Raise {A B} (body : A -> result B) xs e :
  comprehension body xs = Raise e -> exists x, x ∈ xs /\ body x = Raise e.
Proof.
  induction xs as [|x xs IH]; simpl; [done|].
  rewrite bind_Raise. intros [Hx | (v & Hv & Hrest)].
  - exists x. split; [left | done].
  - apply bind_Raise in Hrest as [Hrest | (vs & _ & [=])].
    destruct (IH Hrest) as (x' & Hin & Hx'). exists x'. split; [by right | done].
Qed.

(** X1. The tuple [map_only] returns has one item for each item of the
    iterable, and an item that is neither of the class nor a tuple or a
    list stands unchanged at its position, whatever [func] is. *)
Theorem map_only_keeps_shape c func xs ys :
  map_only c func xs = Ok ys ->
  length ys = length xs /\
  forall i x, xs !! i = Some x ->
    isinstance x c = false -> isinstance x tuple_list = false ->
    ys !! i = Some x.
Proof.
  unfold map_only. rewrite comprehension_Forall2. intros H. split.
  - symmetry. by eapply Forall2_length.
  - intros i x Hi Hc Ht.
    destruct (Forall2_lookup_l _ _ _ _ _ H Hi) as (y & Hy & Hxy).
    rewrite map_only_item_cases, Hc in Hxy. destruct x; try done; congruence.
Qed.

Lemma holds_instance_false c x :
  holds_instance c x = false ->
  isinstance x c = false /\
  match x with
  | PyTuple items | PyList items =>
      Forall (fun i => holds_instance c i = false) items
  | _ => True
  end.
Proof.
  destruct x; simpl; rewrite ?orb_false_iff, ?orb_false_r;
    rewrite ?existsb_false_Forall; tauto.
Qed.

Lemma map_only_item_no_instance c func x :
  holds_instance c x = false ->
  map_only_item c func x = Ok (as_tuples x).
Proof.
  induction x as [items IH|items IH|s|oid a|oid a ty _|oid]
    using pyobj_nested_ind; intros H;
    apply holds_instance_false in H as [Hc Hitems];
    rewrite map_only_item_cases, Hc; try done.
  all: unfold map_only; rewrite (comprehension_map _ as_tuples); [done|].
  all: rewrite Forall_forall in IH, Hitems |- *; auto.
Qed.

(** X2. When the iterable holds no instance of the class, at any nesting
    depth, [map_only] never raises and never calls [func]: it returns
    the items as they are, lists turned into tuples. *)
Theorem map_only_without_instance c func xs :
  existsb (holds_instance c) xs = false ->
  map_only c func xs = Ok (map as_tuples xs).
Proof.
  rewrite existsb_false_Forall. intros H. apply comprehension_map.
  eapply Forall_impl; [exact H|]. intros x. apply map_only_item_no_instance.
Qed.

Lemma holds_instance_identity c f :
  c <> tuple_list -> holds_instance c (stable_identity f) = false.
Proof. by destruct c. Qed.

Lemma existsb_Forall2_same {A B} (f : A -> bool) (g : B -> bool) xs ys :
  Forall2 (fun x y => g y = f x) xs ys -> existsb g ys = existsb f xs.
Proof. induction 1 as [|x y xs ys Hxy _ IH]; simpl; [done|]. by rewrite Hxy, IH. Qed.

Lemma map_only_item_clears c x y :
  map_only_item c _compute_custom_key x = Ok y ->
  holds_instance c y = false /\
  forall c', c' <> c -> c' <> tuple_list ->
    holds_instance c' y = holds_instance c' x.
Proof.
  revert y.
  induction x as [items IH|items IH|s|oid a|oid a ty _|oid]
    using pyobj_nested_ind; intros y; rewrite map_only_item_cases.
  all: destruct (isinstance _ c) eqn:Hc.
  all: try (intros Hy; destruct c; try done;
            apply compute_custom_key_Ok in Hy as (f & _ & ->);
            (split; [done|]); intros c' Hc' Ht; destruct c'; simpl;
            congruence).
  3-6: intros [= <-]; simpl; rewrite Hc; (split; [done|]);
    intros c' Hc' Ht; destruct c'; simpl; congruence.
  all: unfold map_only; rewrite bind_Ok; intros (vs & Hvs & [= <-]).
  all: apply comprehension_Forall2 in Hvs.
  all: assert (Hall : Forall2 (fun x v =>
         holds_instance c v = false /\
         forall c', c' <> c -> c' <> tuple_list ->
           holds_instance c' v = holds_instance c' x) items vs)
    by (clear -IH Hvs; induction Hvs as [|x v xs vs Hv _ IHvs];
        [constructor|]; inversion IH; subst; constructor; auto).
  all: split.
  1, 3: simpl; destruct c; try done; simpl;
    apply existsb_false_Forall;
    clear -Hall; induction Hall as [|x v xs vs [Hv _] _ IHall];
    constructor; auto.
  all: intros c' Hc' Ht; destruct c'; try done; simpl;
    apply existsb_Forall2_same;
    (eapply Forall2_impl; [exact Hall|]);
    intros x v [_ Hv]; by apply Hv.
Qed.

(** X3. What [map_only] with [_compute_custom_key] returns holds no
    instance of the class it replaces, at any nesting depth, and holds an
    instance of the other dispatcher class exactly when the iterable
    did. *)
Theorem map_only_clears_its_class c xs ys :
  map_only c _compute_custom_key xs = Ok ys ->
  existsb (holds_instance c) ys = false /\
  forall c', c' <> c -> c' <> tuple_list ->
    existsb (holds_instance c') ys = existsb (holds_instance c') xs.
Proof.
  unfold map_only. rewrite comprehension_Forall2. intros H.
  assert (Hall : Forall2 (fun x v =>
         holds_instance c v = false /\
         forall c', c' <> c -> c' <> tuple_list ->
           holds_instance c' v = holds_instance c' x) xs ys).
  { eapply Forall2_impl; [exact H|]. intros x y. apply map_only_item_clears. }
  split.
  - apply existsb_false_Forall. clear -Hall.
    induction Hall as [|x v xs vs [Hv _] _ IHall]; constructor; auto.
  - intros c' Hc' Ht. apply existsb_Forall2_same.
    eapply Forall2_impl; [exact Hall|]. intros x v [_ Hv]. by apply Hv.
Qed.

Lemma map_only_item_idempotent c x y :
  map_only_item c _compute_custom_key x = Ok y ->
  map_only_item c _compute_custom_key y = Ok y.
Proof.
  intros H. destruct (map_only_item_clears _ _ _ H) as [Hy _].
  rewrite (map_only_item_no_instance _ _ _ Hy). f_equal.
  revert y H Hy.
  induction x as [items IH|items IH|s|oid a|oid a ty _|oid]
    using pyobj_nested_ind; intros y; rewrite map_only_item_cases.
  all: destruct (isinstance _ c) eqn:Hc.
  all: try (intros Hy; destruct c; try done;
            by apply compute_custom_key_Ok in Hy as (f & _ & ->)).
  3-6: by intros [= <-].
  all: unfold map_only; rewrite bind_Ok; intros (vs & Hvs & [= <-]) Hy.
  all: apply holds_instance_false in Hy as [_ Hy].
  all: simpl; f_equal; apply comprehension_Forall2 in Hvs.
  all: clear -IH Hvs Hy; induction Hvs as [|x v xs vs Hv _ IHvs]; [done|].
  all: inversion IH; inversion Hy; subst; simpl; f_equal; eauto.
Qed.

(** X4. Rewriting is idempotent: [map_only] with [_compute_custom_key]
    applied to what it has returned returns the same tuple. *)
Theorem map_only_idempotent c xs ys :
  map_only c _compute_custom_key xs = Ok ys ->
  map_only c _compute_custom_key ys = Ok ys.
Proof.
  unfold map_only. rewrite !comprehension_Forall2.
  induction 1 as [|x y xs ys Hxy _ IH]; constructor; [|done].
  by eapply map_only_item_idempotent.
Qed.

Lemma compute_custom_key_source typ :
  match source_function (attrs_of typ) with
  | Some f => _compute_custom_key typ = Ok (stable_identity f)
  | None => exists e, _compute_custom_key typ = Raise e /\ introspection_error e
  end.
Proof.
  unfold _compute_custom_key, source_function, introspection_error.
  destruct (py_func (attrs_of typ)) as [f|]; [done|].
  destruct (key (attrs_of typ)) as [| |[f|]]; simpl; eauto 6.
Qed.

Lemma map_only_item_outcome c x :
  if holds_lacking c x
  then exists e, map_only_item c _compute_custom_key x = Raise e /\
                 introspection_error e
  else exists y, map_only_item c _compute_custom_key x = Ok y.
Proof.
  induction x as [items IH|items IH|s|oid a|oid a ty _|oid]
    using pyobj_nested_ind; rewrite map_only_item_cases; simpl.
  all: destruct (isinstance _ c) eqn:Hc.
  all: try (match goal with |- context [_compute_custom_key ?t] =>
              first [ exact (compute_custom_key_source t)
                    | pose proof (compute_custom_key_source t) as Hs;
                      simpl in Hs; destruct (source_function _); by eauto ]
            end).
  all: try by eexists.
  all: unfold map_only; rewrite Forall_forall in IH.
  all: destruct (existsb (holds_lacking c) items) eqn:Hex.
  1, 3: apply existsb_true_Exists, Exists_exists in Hex as (x & Hin & Hx);
    pose proof (IH x Hin) as IHx; rewrite Hx in IHx;
    destruct IHx as (e & He & Herr);
    destruct (comprehension_raises
                (map_only_item c _compute_custom_key) items) as [e' He'];
    [ apply Exists_exists; exists x; split; [done | by exists e]
    | rewrite He'; simpl ].
  3, 4: apply existsb_false_Forall in Hex;
    destruct (comprehension_returns
                (map_only_item c _compute_custom_key) items) as [vs Hvs];
    [ rewrite Forall_forall in Hex |- *; intros x Hin;
      pose proof (IH x Hin) as IHx; by rewrite (Hex x Hin) in IHx
    | rewrite Hvs; by eexists ].
  all: exists e'; split; [done|].
  all: apply comprehension_Raise in He' as (x' & Hin' & Hx').
  all: pose proof (IH x' Hin') as IHx'.
  all: destruct (holds_lacking c x'); [|by destruct IHx' as [? IHx']; congruence].
  all: destruct IHx' as (e0 & He0 & Herr0); congruence.
Qed.

Lemma map_only_Raise c xs e :
  map_only c _compute_custom_key xs = Raise e -> introspection_error e.
Proof.
  intros He. apply comprehension_Raise in He as (x & _ & Hx).
  pose proof (map_only_item_outcome c x) as Hout.
  destruct (holds_lacking c x).
  - destruct Hout as (e0 & He0 & Herr0). congruence.
  - destruct Hout as [y Hy]. congruence.
Qed.

Lemma map_only_returns c xs :
  existsb (holds_lacking c) xs = false ->
  exists ys, map_only c _compute_custom_key xs = Ok ys.
Proof.
  intros Hex. apply existsb_false_Forall in Hex. apply comprehension_returns.
  eapply Forall_impl; [exact Hex|]. intros x Hx.
  pose proof (map_only_item_outcome c x) as Hout. by rewrite Hx in Hout.
Qed.

(** X5. The rewriting fails exactly on an instance without source
    function: [map_only] with [_compute_custom_key] raises when the
    iterable holds, where the walk reaches it, an instance of the class
    that has neither a [py_func] nor a [key()] giving one, and the
    exception is then an [AttributeError] or a [TypeError]; otherwise it
    returns. *)
Theorem map_only_fails_exactly_on_lacking c xs :
  if existsb (holds_lacking c) xs
  then exists e, map_only c _compute_custom_key xs = Raise e /\
                 introspection_error e
  else exists ys, map_only c _compute_custom_key xs = Ok ys.
Proof.
  destruct (existsb (holds_lacking c) xs) eqn:Hex;
    [|by apply map_only_returns].
  apply existsb_true_Exists, Exists_exists in Hex as (x & Hin & Hx).
  pose proof (map_only_item_outcome c x) as Hout. rewrite Hx in Hout.
  destruct Hout as (e & He & _).
  destruct (comprehension_raises
              (map_only_item c _compute_custom_key) xs) as [e' He'].
  { apply Exists_exists. exists x. split; [done | by exists e]. }
  exists e'. split; [exact He'|]. by eapply map_only_Raise.
Qed.

(** The descriptors of C7 are the instances of [types.Dispatcher] without
    source function. *)
Lemma holds_lacking_malformed obj :
  holds_lacking types_Dispatcher obj = holds_malformed obj.
Proof.
  induction obj as [items IH|items IH|s|oid a|oid a ty _|oid]
    using pyobj_nested_ind; simpl; try done.
  1, 2: apply existsb_Forall2_same;
    clear -IH; induction IH; constructor; auto.
  unfold source_function. destruct (py_func a); [done|].
  by destruct (key a) as [| |[f|]].
Qed.

(** ** More on the derived key *)

Lemma getitem_last_Raise k e : getitem_last k = Raise e -> e = IndexError.
Proof. unfold getitem_last. destruct (last k); congruence. Qed.

Lemma getitem_0_Raise x e :
  getitem_0 x = Raise e -> e = IndexError \/ e = TypeError.
Proof.
  destruct x as [[|y items]|[|y items]|[|ch s]|oid a|oid a ty|oid]; simpl;
    intros [=]; auto.
Qed.

Section more_properties.
Context {Codegen : Type}.
Variable super_index_key : cache -> list pyobj -> Codegen -> result (list pyobj).
Variable dumps : pyobj -> result (list byte).
Variable sha256_hexdigest : list byte -> string.

Local Abbreviation index_key := (_index_key super_index_key dumps sha256_hexdigest).

Lemma index_key_raise_bound self sig codegen e :
  index_key self sig codegen = Raise e ->
  super_index_key self sig codegen = Raise e \/
  (exists v, dumps v = Raise e) \/
  introspection_error e \/
  e = IndexError.
Proof.
  rewrite index_key_steps, bind_Raise. intros [H | (k & _ & H)]; [by left|].
  right. apply bind_Raise in H as [H | (k1 & _ & H)].
  - unfold signature_step in H.
    destruct (existsb _is_first_class_function sig); [|done].
    apply bind_Raise in H as [H | (sig' & _ & [=])].
    right. left. by eapply map_only_Raise.
  - unfold closure_step in H.
    destruct (__closure__ (_py_func self)) as [cvars|]; [|done].
    destruct (existsb _is_first_class_function cvars); [|done].
    apply bind_Raise in H as [H | (cvars' & _ & H)];
      [right; left; by eapply map_only_Raise|].
    apply bind_Raise in H as [H | (cvarbytes & _ & H)]; [left; by eexists|].
    apply bind_Raise in H as [H | (x & _ & H)];
      [right; right; by eapply getitem_last_Raise|].
    apply bind_Raise in H as [H | (x0 & _ & [=])].
    apply getitem_0_Raise in H as [-> | ->]; [by right; right|].
    right. left. unfold introspection_error. auto.
Qed.

(** X6. [_index_key] swallows no exception and adds few of its own.  The
    exception of the base class, of the rewriting of the signature, of
    the rewriting of the captured values, of [dumps] on the rewritten
    captured values, and of [key[-1][0]], each where the code reaches
    the call, is the exception [_index_key] raises.  And when it raises,
    the exception is the one the base class raised, or one [dumps]
    raised, or an [AttributeError] or [TypeError] of the introspection of
    a reference, or the [IndexError] or [TypeError] of [key[-1][0]]. *)
Theorem index_key_raises_only_what_it_meets self sig codegen :
  (forall e,
     super_index_key self sig codegen = Raise e ->
     index_key self sig codegen = Raise e) /\
  (forall K0 e,
     super_index_key self sig codegen = Ok K0 ->
     existsb _is_first_class_function sig = true ->
     map_only types_Dispatcher _compute_custom_key sig = Raise e ->
     index_key self sig codegen = Raise e) /\
  (forall K0 k e,
     super_index_key self sig codegen = Ok K0 ->
     signature_step sig K0 = Ok k ->
     existsb _is_first_class_function (closure_cells self) = true ->
     map_only dispatcher_Dispatcher _compute_custom_key (closure_cells self)
       = Raise e ->
     index_key self sig codegen = Raise e) /\
  (forall K0 k cvars e,
     super_index_key self sig codegen = Ok K0 ->
     signature_step sig K0 = Ok k ->
     existsb _is_first_class_function (closure_cells self) = true ->
     map_only dispatcher_Dispatcher _compute_custom_key (closure_cells self)
       = Ok cvars ->
     dumps (PyTuple cvars) = Raise e ->
     index_key self sig codegen = Raise e) /\
  (forall K0 k cvars cvarbytes e,
     super_index_key self sig codegen = Ok K0 ->
     signature_step sig K0 = Ok k ->
     existsb _is_first_class_function (closure_cells self) = true ->
     map_only dispatcher_Dispatcher _compute_custom_key (closure_cells self)
       = Ok cvars ->
     dumps (PyTuple cvars) = Ok cvarbytes ->
     (x <- getitem_last k ;; getitem_0 x) = Raise e ->
     index_key self sig codegen = Raise e) /\
  (forall e,
     index_key self sig codegen = Raise e ->
     super_index_key self sig codegen = Raise e \/
     (exists v, dumps v = Raise e) \/
     introspection_error e \/
     e = IndexError).
Proof.
  assert (Hcells : forall k,
    existsb _is_first_class_function (closure_cells self) = true ->
    closure_step dumps sha256_hexdigest self k =
      (cvars <- map_only dispatcher_Dispatcher _compute_custom_key
                  (closure_cells self) ;;
       cvarbytes <- dumps (PyTuple cvars) ;;
       x <- getitem_last k ;;
       x0 <- getitem_0 x ;;
       Ok (removelast k ++ [x0; hasher sha256_hexdigest cvarbytes]))).
  { intros k. unfold closure_step, closure_cells.
    destruct (__closure__ (_py_func self)) as [cvars|]; [|done].
    by intros ->. }
  repeat split.
  - intros e He. by rewrite index_key_steps, He.
  - intros K0 e HK0 Hscan He. rewrite index_key_steps, HK0. simpl.
    by rewrite signature_step_rewrites, He.
  - intros K0 k e HK0 Hk Hscan He. rewrite index_key_steps, HK0. simpl.
    rewrite Hk. simpl. by rewrite Hcells, He.
  - intros K0 k cvars e HK0 Hk Hscan Hcvars He.
    rewrite index_key_steps, HK0. simpl. rewrite Hk. simpl.
    rewrite Hcells, Hcvars by done. simpl. by rewrite He.
  - intros K0 k cvars cvarbytes e HK0 Hk Hscan Hcvars Hbytes He.
    rewrite index_key_steps, HK0. simpl. rewrite Hk. simpl.
    rewrite Hcells, Hcvars by done. simpl. rewrite Hbytes. simpl.
    destruct (getitem_last k) as [x|e']; simpl in *;
      [by rewrite He | by injection He as ->].
  - apply index_key_raise_bound.
Qed.

(** X7. [_index_key] returns a key when the base class returns one of two
    elements or more whose last element has a first item, no reference in
    the signature or in the closure lacks its source function, and the
    serializer does not fail. *)
Theorem index_key_returns self sig codegen k0 mid x x0 :
  super_index_key self sig codegen = Ok (k0 :: mid ++ [x]) ->
  existsb (holds_lacking types_Dispatcher) sig = false ->
  existsb (holds_lacking dispatcher_Dispatcher) (closure_cells self) = false ->
  (forall v, exists cvarbytes, dumps v = Ok cvarbytes) ->
  getitem_0 x = Ok x0 ->
  exists k, index_key self sig codegen = Ok k.
Proof.
  intros Hsuper Hsig Hcl Hdumps Hx0. rewrite index_key_steps, Hsuper. simpl.
  assert (Hstep : exists lead,
            signature_step sig (k0 :: mid ++ [x]) = Ok (lead :: mid ++ [x])).
  { unfold signature_step. destruct (existsb _is_first_class_function sig); [|by exists k0].
    destruct (map_only_returns _ _ Hsig) as [sig' ->].
    by exists (PyTuple sig'). }
  destruct Hstep as [lead ->]. simpl.
  unfold closure_step, closure_cells in *.
  destruct (__closure__ (_py_func self)) as [cvars|]; [|by eexists].
  destruct (existsb _is_first_class_function cvars); [|by eexists].
  destruct (map_only_returns _ _ Hcl) as [cvars' ->]. simpl.
  destruct (Hdumps (PyTuple cvars')) as [cvarbytes ->]. simpl.
  unfold getitem_last. rewrite app_comm_cons, last_snoc. simpl.
  rewrite Hx0. by eexists.
Qed.

(** X8. Whatever path [_index_key] takes, the elements of the base key
    between its first and its last stand in the returned key at the
    positions they had. *)
Theorem index_key_keeps_the_middle self sig codegen k0 mid x k :
  super_index_key self sig codegen = Ok (k0 :: mid ++ [x]) ->
  index_key self sig codegen = Ok k ->
  exists lead tail, k = lead :: mid ++ tail /\ tail <> [].
Proof.
  intros Hsuper. rewrite index_key_steps, Hsuper. simpl.
  intros H. apply bind_Ok in H as (k1 & Hk1 & Hk).
  assert (exists lead, k1 = lead :: mid ++ [x]) as [lead ->].
  { unfold signature_step in Hk1. destruct (existsb _is_first_class_function sig).
    - apply bind_Ok in Hk1 as (sig' & _ & [= <-]). by eexists.
    - injection Hk1 as <-. by eexists. }
  rewrite app_comm_cons in Hk. unfold closure_step in Hk.
  destruct (__closure__ (_py_func self)) as [cvars|];
    [|injection Hk as <-; by exists lead, [x]].
  destruct (existsb _is_first_class_function cvars); [|injection Hk as <-; by exists lead, [x]].
  apply bind_Ok in Hk as (cvars' & _ & Hk).
  apply bind_Ok in Hk as (cvarbytes & _ & Hk).
  apply bind_Ok in Hk as (y & _ & Hk).
  apply bind_Ok in Hk as (y0 & _ & Hk).
  rewrite removelast_last in Hk. injection Hk as <-.
  by exists lead, [y0; hasher sha256_hexdigest cvarbytes].
Qed.

Lemma closure_step_same_rewriting selfA selfB cvarsA cvarsB init xa xb :
  __closure__ (_py_func selfA) = Some cvarsA ->
  __closure__ (_py_func selfB) = Some cvarsB ->
  existsb _is_first_class_function cvarsA = true ->
  existsb _is_first_class_function cvarsB = true ->
  map_only dispatcher_Dispatcher _compute_custom_key cvarsA =
  map_only dispatcher_Dispatcher _compute_custom_key cvarsB ->
  getitem_0 xa = getitem_0 xb ->
  closure_step dumps sha256_hexdigest selfA (init ++ [xa]) =
  closure_step dumps sha256_hexdigest selfB (init ++ [xb]).
Proof.
  intros HA HB HsA HsB Hmap Hx. unfold closure_step.
  rewrite HA, HB, HsA, HsB, Hmap.
  destruct (map_only _ _ cvarsB) as [cvars'|e]; simpl; [|done].
  destruct (dumps _) as [cvarbytes|e]; simpl; [|done].
  unfold getitem_last. rewrite !last_snoc. simpl. rewrite Hx.
  by rewrite !removelast_last.
Qed.

(** X9. The key does not tell apart two compiled instances of one source
    function captured in the closure: two functions whose closures differ
    only in holding, at the same position, one or the other of two
    [dispatcher.Dispatcher] objects with equal module path and qualified
    name get equal keys, the base keys differing only after the first
    component of their last element. *)
Theorem closure_instances_share_the_key
    selfA selfB sig codegen before c after
    oa aa tya ob ab tyb fa fb init xa xb :
  __closure__ (_py_func selfA) =
    Some (before ++ plug c (DispatcherObj oa aa tya) :: after) ->
  __closure__ (_py_func selfB) =
    Some (before ++ plug c (DispatcherObj ob ab tyb) :: after) ->
  _is_first_class_function tya = true ->
  _is_first_class_function tyb = true ->
  source_function aa = Some fa ->
  source_function ab = Some fb ->
  __module__ fa = __module__ fb ->
  __qualname__ fa = __qualname__ fb ->
  super_index_key selfA sig codegen = Ok (init ++ [xa]) ->
  super_index_key selfB sig codegen = Ok (init ++ [xb]) ->
  getitem_0 xa = getitem_0 xb ->
  index_key selfA sig codegen = index_key selfB sig codegen.
Proof.
  intros HA HB Hta Htb Hfa Hfb Hm Hq HkA HkB Hx.
  assert (Hty : dispatcher_Dispatcher <> tuple_list) by done.
  assert (Hmap :
    map_only dispatcher_Dispatcher _compute_custom_key
      (before ++ plug c (DispatcherObj oa aa tya) :: after) =
    map_only dispatcher_Dispatcher _compute_custom_key
      (before ++ plug c (DispatcherObj ob ab tyb) :: after)).
  { apply map_only_plug_eq; [done|]. simpl.
    pose proof (compute_custom_key_source (DispatcherObj oa aa tya)) as Ha.
    pose proof (compute_custom_key_source (DispatcherObj ob ab tyb)) as Hb.
    simpl in Ha, Hb. rewrite Hfa in Ha. rewrite Hfb in Hb.
    rewrite Ha, Hb. unfold stable_identity. by rewrite Hm, Hq. }
  assert (Hstep : forall init' ya yb, getitem_0 ya = getitem_0 yb ->
    closure_step dumps sha256_hexdigest selfA (init' ++ [ya]) =
    closure_step dumps sha256_hexdigest selfB (init' ++ [yb])).
  { intros init' ya yb Hy.
    eapply closure_step_same_rewriting; try done.
    all: by apply existsb_middle, scan_plug. }
  rewrite !index_key_steps, HkA, HkB. simpl. unfold signature_step.
  destruct (existsb _is_first_class_function sig); simpl; [|by apply Hstep].
  destruct (map_only _ _ sig) as [sig'|e]; simpl; [|done].
  destruct init as [|i0 init]; simpl.
  - by apply (Hstep []).
  - rewrite !drop_0. by apply (Hstep (PyTuple sig' :: init)).
Qed.

End more_properties.

(** X10. When the scan of the captured values finds nothing, or the
    function has no closure, the key owes nothing to the serializer and
    the digest: [_index_key] gives the same result with any other pair
    of them. *)
Theorem index_key_ignores_serializer {Codegen : Type}
    (super_index_key : cache -> list pyobj -> Codegen -> result (list pyobj))
    dumps1 dumps2 hexdigest1 hexdigest2 self sig codegen :
  existsb _is_first_class_function (closure_cells self) = false ->
  _index_key super_index_key dumps1 hexdigest1 self sig codegen =
  _index_key super_index_key dumps2 hexdigest2 self sig codegen.
Proof. intros H. by rewrite !index_key_plain_closure. Qed.

(** X11. A list that holds itself as its first item exhausts the
    recursion limit, whatever the limit is: the scan of it raises
    [RecursionError], and so does the signature step on a signature that
    starts with it; the store is left as it was. *)
Theorem cyclic_list_hits_recursion_limit depth (st : list Heap.object)
    (a sig k : nat) rest items :
  st !! a = Some (Heap.OList (a :: rest)) ->
  st !! sig = Some (Heap.OTuple (a :: items)) ->
  Heap._is_first_class_function depth a st = (Raise RecursionError, st) /\
  Heap.signature_step depth sig k st = (Raise RecursionError, st).
Proof.
  intros Ha Hsig.
  assert (Hscan : forall d,
    Heap._is_first_class_function d a st = (Raise RecursionError, st)).
  { induction d as [|d IH]; [done|]. simpl.
    unfold Heap.bind at 1, Heap.load. rewrite Ha. simpl.
    unfold Heap.bind. by rewrite IH. }
  split; [apply Hscan|].
  unfold Heap.signature_step, Heap.bind at 1, Heap.iter.
  unfold Heap.bind at 1, Heap.load. rewrite Hsig. simpl.
  unfold Heap.bind. by rewrite Hscan.
Qed.

(** X12. On values whose dispatcher objects carry their type, the scan
    answers exactly whether a Compiled-Function Reference is held: it is
    true when, and only when, an instance of one of the two dispatcher
    classes stands at some nesting depth of the tuples and lists. *)
Theorem scan_is_exact xs :
  forallb typed xs = true ->
  existsb _is_first_class_function xs = existsb holds_reference xs.
Proof.
  intros Hty. destruct (existsb holds_reference xs) eqn:Href.
  - by apply scan_items.
  - by apply scan_items_sound.
Qed.

(** X13. Whatever store [_index_key] runs from and whatever is left of
    the recursion limit, also when it raises, every object of the store
    is the same afterwards, provided the base class and the serializer
    change none. *)
Theorem index_key_changes_no_object
    (hsuper_index_key : Heap.hcache -> nat -> nat -> Heap.M nat)
    (hdumps : nat -> Heap.M (list byte)) sha256_hexdigest depth
    self (sig codegen : nat) (st : list Heap.object) (a : nat) o :
  (forall self sig codegen, Heap.extends (hsuper_index_key self sig codegen)) ->
  (forall cvars, Heap.extends (hdumps cvars)) ->
  st !! a = Some o ->
  snd (Heap._index_key hsuper_index_key hdumps sha256_hexdigest depth
         self sig codegen st) !! a = Some o.
Proof.
  intros Hsuper Hdumps Ho. eapply prefix_lookup_Some; [exact Ho|].
  by apply extends_index_key.
Qed.

(** ** The further properties on the concrete hosts *)

Lemma map_only_keeps_shape_witness :
  let xs := [Example.int64; Example.type_of 1 Example.square; PyList [PyStr "a"]] in
  let ys := [Example.int64; PyTuple [PyStr "m"; PyStr "square"];
             PyTuple [PyStr "a"]] in
  length ys = length xs /\
  forall i x, xs !! i = Some x ->
    isinstance x types_Dispatcher = false -> isinstance x tuple_list = false ->
    ys !! i = Some x.
Proof.
  apply (map_only_keeps_shape types_Dispatcher _compute_custom_key).
  reflexivity.
Defined.

Lemma map_only_without_instance_witness :
  map_only types_Dispatcher (fun _ => Raise TypeError)
    [Example.int64; PyList [Example.jit 1 Example.square; PyStr "a"]] =
  Ok (map as_tuples
        [Example.int64; PyList [Example.jit 1 Example.square; PyStr "a"]]).
Proof. apply map_only_without_instance. reflexivity. Defined.

Lemma map_only_clears_its_class_witness :
  let xs := [PyList [Example.type_of 1 Example.square];
             Example.jit 2 Example.cube] in
  let ys := [PyTuple [PyTuple [PyStr "m"; PyStr "square"]];
             Example.jit 2 Example.cube] in
  existsb (holds_instance types_Dispatcher) ys = false /\
  forall c', c' <> types_Dispatcher -> c' <> tuple_list ->
    existsb (holds_instance c') ys = existsb (holds_instance c') xs.
Proof.
  apply (map_only_clears_its_class types_Dispatcher). reflexivity.
Defined.

Lemma map_only_idempotent_witness :
  let ys := [PyTuple [PyTuple [PyStr "m"; PyStr "square"]]; Example.int64] in
  map_only types_Dispatcher _compute_custom_key ys = Ok ys.
Proof.
  apply (map_only_idempotent types_Dispatcher
           [PyList [Example.type_of 1 Example.square]; Example.int64]).
  reflexivity.
Defined.

Lemma index_key_raises_only_what_it_meets_witness :
  let self := Example.closure [Example.jit 1 Example.square] in
  let refusing (_ : cache) (_ : list pyobj) (_ : unit) : result (list pyobj) :=
    Raise (Raised "no cache directory") in
  let short (_ : cache) (_ : list pyobj) (_ : unit) : result (list pyobj) :=
    Ok [PyTuple []] in
  _index_key refusing Example.dumps Example.hexdigest self [Example.int64] tt =
    Raise (Raised "no cache directory") /\
  (short self [Example.int64] tt = Raise IndexError \/
   (exists v, Example.dumps v = Raise IndexError) \/
   introspection_error IndexError \/
   IndexError = IndexError).
Proof.
  intros self refusing short. split.
  - apply (index_key_raises_only_what_it_meets
             refusing Example.dumps Example.hexdigest self [Example.int64] tt).
    reflexivity.
  - apply (index_key_raises_only_what_it_meets
             short Example.dumps Example.hexdigest self [Example.int64] tt).
    reflexivity.
Defined.

Lemma index_key_returns_witness :
  exists k,
    Example.index_key (Example.closure [Example.jit 1 Example.square])
      [Example.int64; Example.type_of 3 Example.square] tt = Ok k.
Proof.
  apply (index_key_returns
           Example.base_index_key Example.dumps Example.hexdigest
           _ _ tt
           (PyTuple [Example.int64; Example.type_of 3 Example.square])
           [PyStr "x86_64"] (PyTuple [PyStr "h(code)"; PyStr "h(cvars)"])
           (PyStr "h(code)")).
  - reflexivity.
  - reflexivity.
  - reflexivity.
  - intros v. by eexists.
  - reflexivity.
Defined.

Lemma index_key_keeps_the_middle_witness :
  exists lead tail,
    [PyTuple [Example.int64; PyTuple [PyStr "m"; PyStr "square"]];
     PyStr "x86_64"; PyStr "h(code)";
     PyStr (Example.hexdigest
              (Example.dumps_bytes
                 (PyTuple [PyTuple [PyStr "m"; PyStr "square"]])))] =
    lead :: [PyStr "x86_64"] ++ tail /\ tail <> [].
Proof.
  apply (index_key_keeps_the_middle
           Example.base_index_key Example.dumps Example.hexdigest
           (Example.closure [Example.jit 1 Example.square])
           [Example.int64; Example.type_of 3 Example.square] tt
           (PyTuple [Example.int64; Example.type_of 3 Example.square])
           [PyStr "x86_64"] (PyTuple [PyStr "h(code)"; PyStr "h(cvars)"])).
  - reflexivity.
  - reflexivity.
Defined.

Lemma closure_instances_share_the_key_witness :
  Example.index_key
    (Example.closure ([Example.int64] ++
                      plug (InList [] Here []) (Example.jit 1 Example.square) :: []))
    [Example.int64] tt =
  Example.index_key
    (Example.closure ([Example.int64] ++
                      plug (InList [] Here []) (Example.jit 5 Example.square) :: []))
    [Example.int64] tt.
Proof.
  apply (closure_instances_share_the_key
           Example.base_index_key Example.dumps Example.hexdigest
           _ _ [Example.int64] tt [Example.int64] (InList [] Here []) []
           1 {| py_func := Some Example.square; key := NoKey |}
           (Example.type_of 2 Example.square)
           5 {| py_func := Some Example.square; key := NoKey |}
           (Example.type_of 6 Example.square)
           Example.square Example.square
           [PyTuple [Example.int64]; PyStr "x86_64"]
           (PyTuple [PyStr "h(code)"; PyStr "h(cvars)"])
           (PyTuple [PyStr "h(code)"; PyStr "h(cvars)"]));
    reflexivity.
Defined.

Lemma index_key_ignores_serializer_witness :
  _index_key Example.base_index_key Example.dumps Example.hexdigest
    (Example.closure [Example.int64])
    [Example.type_of 1 Example.square] tt =
  _index_key Example.base_index_key HeapExample.dumps_value (fun _ => "")
    (Example.closure [Example.int64])
    [Example.type_of 1 Example.square] tt.
Proof. apply index_key_ignores_serializer. reflexivity. Defined.

Lemma cyclic_list_hits_recursion_limit_witness :
  Heap._is_first_class_function 1000 0 CyclicExample.objects =
    (Raise RecursionError, CyclicExample.objects) /\
  Heap.signature_step 1000 1 2 CyclicExample.objects =
    (Raise RecursionError, CyclicExample.objects).
Proof.
  apply (cyclic_list_hits_recursion_limit 1000 CyclicExample.objects 0 1 2
           [2] []); reflexivity.
Defined.

Lemma scan_is_exact_witness :
  existsb _is_first_class_function
    [Example.int64; PyList [Example.jit 1 Example.square]] =
  existsb holds_reference
    [Example.int64; PyList [Example.jit 1 Example.square]].
Proof. apply scan_is_exact. reflexivity. Defined.

Lemma example_base_extends self sig codegen :
  Heap.extends (HeapExample.base_index_key self sig codegen).
Proof. intros st. simpl. by do 5 apply prefix_app_r. Qed.

Lemma example_dumps_extends cvars : Heap.extends (HeapExample.dumps cvars).
Proof. by intros st. Qed.

Lemma index_key_changes_no_object_witness :
  snd (Heap._index_key HeapExample.base_index_key HeapExample.dumps
         Example.hexdigest 0 HeapExample.self 3 4 HeapExample.objects) !! 2 =
  Some (Heap.ODispatcher HeapExample.square_attrs 1).
Proof.
  apply (index_key_changes_no_object
           HeapExample.base_index_key HeapExample.dumps Example.hexdigest 0
           HeapExample.self 3 4 HeapExample.objects 2).
  - apply example_base_extends.
  - apply example_dumps_extends.
  - reflexivity.
Defined.

(** ** Where the specification's wording goes beyond the code *)


(** With a serializer that is deterministic, its bytes being the same
    whatever it is given and whatever the store, but leaves a mark on
    what it serializes: two runs return keys of equal value, and the
    captured type descriptor is not what it was. *)
Lemma marking_serializer_counterexample :
  let run1 := MemoExample.index_key HeapExample.objects in
  let run2 := MemoExample.index_key (snd run1) in
  (forall x st st' b b',
     fst (MemoExample.dumps x st) = Ok b ->
     fst (MemoExample.dumps x st') = Ok b' -> b = b') /\
  (exists k1 k2 key,
     fst run1 = Ok k1 /\ fst run2 = Ok k2 /\
     Heap.repr (snd run1) k1 key /\ Heap.repr (snd run2) k2 key) /\
  HeapExample.objects !! 1 =
    Some (Heap.OTypesDispatcher (Example.type_attrs Example.square)) /\
  ~ (forall (a : nat) (o : Heap.object),
       HeapExample.objects !! a = Some o -> snd run1 !! a = Some o).
Proof.
  intros run1 run2. split; [|split; [|split]].
  - intros x st st' b b'. unfold MemoExample.dumps, Heap.bind.
    destruct (Heap.iter x st) as [[items|e] st1],
      (Heap.iter x st') as [[items'|e'] st1']; simpl; congruence.
  - eexists _, _,
      (PyTuple [PyTuple [PyOther 0; PyTuple [PyStr "m"; PyStr "square"]];
                PyStr "x86_64"; PyStr "h(code)";
                PyStr (Example.hexdigest [x2e])]).
    split; [reflexivity|]. split; [reflexivity|].
    split; repeat first [reflexivity | econstructor].
  - reflexivity.
  - intros H. specialize (H 1 _ eq_refl). vm_compute in H. discriminate.
Qed.
